(** * n8n-frontend: the workflow provider, the canvas editor and the form
    builder, embedded as Rocq functions.

    The development follows the source files:
    - [Js], [Obj]   the JavaScript values the components pass around
                    ([any], [Record<string, any>], react-flow's nodes and
                    edges), the built-ins [JSON.stringify]/[JSON.parse],
                    object literals and their prototype;
    - [Provider]    src/components/workflow-provider.tsx;
    - [Editor]      the react-flow editor ([saveLocal], [loadLocal],
                    [onConnect], [updateSelected]);
    - [FormBuilder], [BuilderPanel], [PreviewForm]
                    the form builder;
    - [Canvas], [NodeInspector], [Toolbar]
                    src/components/workflow-canvas.tsx, node-palette.tsx,
                    the node inspector and workflow-toolbar.tsx. *)

From Stdlib Require Import List String Ascii Bool Arith NArith Lia.
From Stdlib Require Import PrimFloat DecimalString Permutation.
Import ListNotations.
Open Scope string_scope.

Set Implicit Arguments.

(* ===================================================================== *)
(** * JavaScript values *)
(* ===================================================================== *)

Module Js.

(** A JS [number] is an IEEE binary64, that is Rocq's primitive [float]. *)
Definition number := float.

#[local] Set Warnings "-register-all".

(** Values of type [any] as they occur in node data, parsed JSON and the
    objects of react-flow.  An object is the list of its own enumerable
    properties in insertion order; the first binding of a key is the one
    that counts.  A string is the sequence of its UTF-16 code units, for
    texts whose code units are below 256. *)
Inductive JsValue : Type :=
| JUndefined
| JNull
| JBool (b : bool)
| JNum (n : number)
| JStr (s : string)
| JArr (items : list JsValue)
| JObj (props : list (string * JsValue)).

(** The induction principle that reaches inside arrays and objects. *)
Section JsValue_nested_ind.
Variable P : JsValue -> Prop.
Hypothesis Hundef : P JUndefined.
Hypothesis Hnull : P JNull.
Hypothesis Hbool : forall b, P (JBool b).
Hypothesis Hnum : forall n, P (JNum n).
Hypothesis Hstr : forall s, P (JStr s).
Hypothesis Harr : forall items, Forall P items -> P (JArr items).
Hypothesis Hobj : forall props, Forall (fun kv => P (snd kv)) props -> P (JObj props).

Fixpoint JsValue_nested_ind (v : JsValue) : P v :=
    match v with
    | JUndefined => Hundef
    | JNull => Hnull
    | JBool b => Hbool b
    | JNum n => Hnum n
    | JStr s => Hstr s
    | JArr items =>
        Harr ((fix all (l : list JsValue) : Forall P l :=
                 match l with
                 | [] => Forall_nil P
                 | x :: r => Forall_cons x (JsValue_nested_ind x) (all r)
                 end) items)
    | JObj props =>
        Hobj ((fix all (l : list (string * JsValue)) : Forall (fun kv => P (snd kv)) l :=
                 match l with
                 | [] => Forall_nil _
                 | kv :: r => Forall_cons kv (JsValue_nested_ind (snd kv)) (all r)
                 end) props)
    end.
End JsValue_nested_ind.

(** [ToBoolean]: [undefined], [null], [false], [0], [-0], [NaN] and the
    empty string are falsy; every object and array is truthy. *)
Definition truthy (v : JsValue) : bool :=
  match v with
  | JUndefined | JNull => false
  | JBool b => b
  | JNum n => negb (is_zero n || is_nan n)
  | JStr s => negb (s =? "")
  | JArr _ | JObj _ => true
  end.

(** [s || d] on strings: the empty string is falsy. *)
Definition str_or (s d : string) : string := if s =? "" then d else s.

Fixpoint lookup (k : string) (props : list (string * JsValue)) : option JsValue :=
  match props with
  | [] => None
  | (k', v) :: rest => if k' =? k then Some v else lookup k rest
  end.

(** What an evaluation yields: a value, or a thrown error. *)
Inductive JsError : Type :=
| SyntaxError          (* JSON.parse on text that is not JSON *)
| TypeError            (* property read on null or undefined, call of a non-function *)
| Thrown (message : string)   (* throw new Error(message) *).

Inductive Completion (A : Type) : Type :=
| Normal (a : A)
| Throw (e : JsError).
Arguments Normal {A} a.
Arguments Throw {A} e.

Definition bind {A B} (c : Completion A) (k : A -> Completion B) : Completion B :=
  match c with
  | Normal a => k a
  | Throw e => Throw e
  end.

Notation "x <- c ;; k" := (bind c (fun x => k))
  (at level 61, c at next level, right associativity).

(** [v.k] for one of the property names the components read ([id], [type],
    [title], [elements], [fieldName], [nodes], [edges], [source],
    [target]): none of them exists on a primitive wrapper or on
    [Array.prototype], so the read is [undefined] unless [v] is an object
    that has the key; on [null] and [undefined] it throws. *)
Definition prop (k : string) (v : JsValue) : Completion JsValue :=
  match v with
  | JUndefined | JNull => Throw TypeError
  | JObj props => Normal (match lookup k props with Some x => x | None => JUndefined end)
  | _ => Normal JUndefined
  end.

Definition isArray (v : JsValue) : bool :=
  match v with JArr _ => true | _ => false end.

(** [v === JStr s]: strict equality with a string. *)
Definition is_string (s : string) (v : JsValue) : bool :=
  match v with JStr s' => s' =? s | _ => false end.

(** ** JSON *)

(** A number as [JSON.stringify] writes it and [JSON.parse] reads it back:
    [NaN] and the infinities are written [null], [-0] is written [0], every
    other number is written in the shortest form that reads back as
    itself. *)
Definition json_number (n : number) : JsValue :=
  if is_nan n || is_infinity n then JNull
  else if is_zero n && get_sign n then JNum zero
  else JNum n.

(** The value denoted by the text [JSON.stringify v], for [v] other than
    [undefined]: a property whose value is [undefined] is left out, an
    [undefined] array element is written [null]. *)
Fixpoint json_value (v : JsValue) : JsValue :=
  match v with
  | JUndefined => JNull
  | JNull => JNull
  | JBool b => JBool b
  | JNum n => json_number n
  | JStr s => JStr s
  | JArr items => JArr (map json_value items)
  | JObj props =>
      JObj ((fix members (l : list (string * JsValue)) : list (string * JsValue) :=
               match l with
               | [] => []
               | (k, JUndefined) :: rest => members rest
               | (k, x) :: rest => (k, json_value x) :: members rest
               end) props)
  end.

(** A text held in a string variable or in [localStorage], as far as the
    components can tell texts apart: they test it for emptiness and hand it
    to [JSON.parse].  A text that is JSON is represented by the value it
    denotes. *)
Inductive Text : Type :=
| empty_text
| malformed_text
| json_text (denotes : JsValue).

Definition JSON_parse (t : Text) : Completion JsValue :=
  match t with
  | json_text v => Normal v
  | empty_text | malformed_text => Throw SyntaxError
  end.

(** [JSON.stringify v]; at top level [undefined] has no JSON text (the
    components only ever pass an object or an array). *)
Definition JSON_stringify (v : JsValue) : Text :=
  match v with
  | JUndefined => malformed_text
  | _ => json_text (json_value v)
  end.

(** [localStorage.getItem(key) || "[]"]. *)
Definition item_or_empty_array (item : option Text) : Text :=
  match item with
  | None | Some empty_text => json_text (JArr [])
  | Some t => t
  end.

(** Values that JSON carries unchanged. *)
Definition exact_number (n : number) : bool :=
  negb (is_nan n || is_infinity n) && negb (is_zero n && get_sign n).

Fixpoint json_exact (v : JsValue) : bool :=
  match v with
  | JUndefined => false
  | JNull | JBool _ | JStr _ => true
  | JNum n => exact_number n
  | JArr items => forallb json_exact items
  | JObj props =>
      (fix members (l : list (string * JsValue)) : bool :=
         match l with
         | [] => true
         | (_, x) :: rest => json_exact x && members rest
         end) props
  end.

(** ** Array helpers on parsed values, whose callbacks may throw *)

(** [items.findIndex(p)], counting from [i]. *)
Fixpoint findIndex (p : JsValue -> Completion bool) (items : list JsValue) (i : nat)
  : Completion (option nat) :=
  match items with
  | [] => Normal None
  | x :: rest =>
      b <- p x ;;
      if b then Normal (Some i) else findIndex p rest (S i)
  end.

(** [items.find(p)]. *)
Fixpoint find_value (p : JsValue -> Completion bool) (items : list JsValue)
  : Completion (option JsValue) :=
  match items with
  | [] => Normal None
  | x :: rest =>
      b <- p x ;;
      if b then Normal (Some x) else find_value p rest
  end.

(** [items.filter(p)]. *)
Fixpoint filter_values (p : JsValue -> Completion bool) (items : list JsValue)
  : Completion (list JsValue) :=
  match items with
  | [] => Normal []
  | x :: rest =>
      b <- p x ;;
      kept <- filter_values p rest ;;
      Normal (if b then x :: kept else kept)
  end.

(** [items[i] = x] for [i] within the array. *)
Fixpoint assign_index (items : list JsValue) (i : nat) (x : JsValue) : list JsValue :=
  match items, i with
  | [], _ => []
  | _ :: rest, O => x :: rest
  | y :: rest, S j => y :: assign_index rest j x
  end.

(** A method call on the parsed item; anything but an array has no
    [findIndex], [find] or [filter]. *)
Definition as_array (v : JsValue) : Completion (list JsValue) :=
  match v with
  | JArr items => Normal items
  | _ => Throw TypeError
  end.

(** [v ?? d]. *)
Definition nullish_or (v d : JsValue) : JsValue :=
  match v with
  | JUndefined | JNull => d
  | _ => v
  end.

End Js.

(* ===================================================================== *)
(** * Object literals: property assignment and spread *)
(* ===================================================================== *)

Module Obj.
Import Js.

(** [o[k]] on an object given by its property list. *)
Fixpoint get {A : Type} (k : string) (props : list (string * A)) : option A :=
  match props with
  | [] => None
  | (k', v) :: rest => if k' =? k then Some v else get k rest
  end.

(** The own property [k] defined as [v], as a key of an object literal or
    a spread defines it: an existing key keeps its place, a new key goes
    last. *)
Fixpoint assign {A : Type} (k : string) (v : A) (props : list (string * A))
  : list (string * A) :=
  match props with
  | [] => [(k, v)]
  | (k', x) :: rest =>
      if k' =? k then (k, v) :: rest else (k', x) :: assign k v rest
  end.

(** The property names of [Object.prototype] in a browser: the members of
    the standard and those of its Annex B. *)
Definition Object_prototype : list string :=
  ["constructor"; "hasOwnProperty"; "isPrototypeOf"; "propertyIsEnumerable";
   "toLocaleString"; "toString"; "valueOf";
   "__defineGetter__"; "__defineSetter__"; "__lookupGetter__"; "__lookupSetter__";
   "__proto__"].

Definition inherited (k : string) : bool := existsb (String.eqb k) Object_prototype.

(** What [o[k]] reads on an object made by an object literal: its own
    property when it has one; else the member of [Object.prototype] of that
    name, which is a function or, for [__proto__], the prototype object;
    else [undefined]. *)
Inductive Read (A : Type) : Type :=
| own (v : A)
| member
| nothing.

Arguments member {A}.
Arguments nothing {A}.

Definition read {A : Type} (k : string) (props : list (string * A)) : Read A :=
  match get k props with
  | Some v => own v
  | None => if inherited k then member else nothing
  end.

(** [o[k] = v] on an object made by an object literal, for a [v] that is
    neither an object nor [null]: an own property is overwritten; a key the
    object does not have is added, except [__proto__], which is then the
    accessor of [Object.prototype], whose setter ignores such a [v]. *)
Definition put {A : Type} (k : string) (v : A) (props : list (string * A))
  : list (string * A) :=
  match get k props with
  | Some _ => assign k v props
  | None => if k =? "__proto__" then props else assign k v props
  end.

(** [{ ...base, ...extra }] on property lists. *)
Definition spread {A : Type} (base extra : list (string * A)) : list (string * A) :=
  fold_left (fun acc kv => assign (fst kv) (snd kv) acc) extra base.

Definition index_key (i : nat) : string := NilZero.string_of_uint (Nat.to_uint i).

Fixpoint indexed (items : list JsValue) (i : nat) : list (string * JsValue) :=
  match items with
  | [] => []
  | x :: rest => (index_key i, x) :: indexed rest (S i)
  end.

Fixpoint characters (s : string) (i : nat) : list (string * JsValue) :=
  match s with
  | EmptyString => []
  | String c rest => (index_key i, JStr (String c EmptyString)) :: characters rest (S i)
  end.

(** What [...v] contributes to an object literal: the own enumerable
    properties of an object, the indices of an array or of a string (one
    per code unit), nothing for [undefined], [null], a boolean or a
    number. *)
Definition own_props (v : JsValue) : list (string * JsValue) :=
  match v with
  | JObj props => props
  | JArr items => indexed items 0
  | JStr s => characters s 0
  | _ => []
  end.

(** [items.map(f)] for a callback that may throw. *)
Fixpoint map_values (f : JsValue -> Completion JsValue) (items : list JsValue)
  : Completion (list JsValue) :=
  match items with
  | [] => Normal []
  | x :: rest =>
      y <- f x ;;
      ys <- map_values f rest ;;
      Normal (y :: ys)
  end.

(** [{ ...node, data: { ...node.data, ...patch } }] when [node.id] is
    [nodeId], the node itself otherwise: the callback of [updateSelected]
    and of [onNodeUpdate]. *)
Definition patch_data (nodeId : string) (patch : JsValue) (node : JsValue)
  : Completion JsValue :=
  i <- prop "id" node ;;
  if is_string nodeId i then
    data <- prop "data" node ;;
    Normal (JObj (assign "data" (JObj (spread (own_props data) (own_props patch)))
                         (own_props node)))
  else Normal node.

(** Whether a value is an object (neither a primitive nor an array). *)
Definition is_object (v : JsValue) : bool :=
  match v with JObj _ => true | _ => false end.

End Obj.

(* ===================================================================== *)
(** * src/components/workflow-provider.tsx *)
(* ===================================================================== *)

Module Provider.
Import Js.

(** ** Data *)

Module Workflow.
(** [interface Workflow].  [Node] and [Edge] are react-flow's object types. *)
Record t : Type := make {
  id : string;
  name : string;
  description : string;
  nodes : list JsValue;
  edges : list JsValue;
  outputs : number;
  createdAt : string;
  updatedAt : string
}.

(** The object itself, as [JSON.stringify] and the canvas see it. *)
Definition toJs (w : t) : JsValue :=
  JObj [("id", JStr (id w)); ("name", JStr (name w));
        ("description", JStr (description w));
        ("nodes", JArr (nodes w)); ("edges", JArr (edges w));
        ("outputs", JNum (outputs w));
        ("createdAt", JStr (createdAt w)); ("updatedAt", JStr (updatedAt w))].

(** The typed view of a parsed object (the annotation [w: Workflow] on the
    result of [JSON.parse]); [None] when the object is not of that type. *)
Definition ofJs (v : JsValue) : option t :=
  match v with
  | JObj ps =>
      match lookup "id" ps, lookup "name" ps, lookup "description" ps,
            lookup "nodes" ps, lookup "edges" ps, lookup "outputs" ps,
            lookup "createdAt" ps, lookup "updatedAt" ps with
      | Some (JStr i), Some (JStr n), Some (JStr d), Some (JArr ns),
        Some (JArr es), Some (JNum o), Some (JStr c), Some (JStr u) =>
          Some (make i n d ns es o c u)
      | _, _, _, _, _, _, _, _ => None
      end
  | _ => None
  end.
End Workflow.

(** [status: "running" | "completed" | "failed"]. *)
Inductive RunStatus : Type := running | completed | failed.

(** The string literal of a status. *)
Definition status_literal (s : RunStatus) : string :=
  match s with
  | running => "running"
  | completed => "completed"
  | failed => "failed"
  end.

Definition terminal (s : RunStatus) : bool :=
  match s with running => false | completed | failed => true end.

Module WorkflowRun.
(** [interface WorkflowRun]. *)
Record t : Type := make {
  id : string;
  workflowId : string;
  status : RunStatus;
  startedAt : string;
  completedAt : option string;
  logs : list string;
  result : option JsValue
}.
End WorkflowRun.

(** What one call reads from the clock: [Date.now()] and
    [new Date().toISOString()]. *)
Record Clock : Type := { Date_now : N; toISOString : string }.

(** The decimal digits of [Date.now()] inside a template literal. *)
Definition decimal (n : N) : string := NilZero.string_of_uint (N.to_uint n).

(** The provider's state: the four [useState] cells, the [localStorage]
    item under the key ["workflows"], and the calls of [runWorkflow] that
    are suspended at their [await], each holding the [run] it created. *)
Record State : Type := {
  currentWorkflow : option Workflow.t;
  workflows : list Workflow.t;
  workflowRuns : list WorkflowRun.t;
  isRunning : bool;
  localStorage : option Text;
  awaiting : list WorkflowRun.t
}.

Definition set_currentWorkflow (c : option Workflow.t) (st : State) : State :=
  {| currentWorkflow := c; workflows := workflows st;
     workflowRuns := workflowRuns st; isRunning := isRunning st;
     localStorage := localStorage st; awaiting := awaiting st |}.

Definition set_workflows (ws : list Workflow.t) (st : State) : State :=
  {| currentWorkflow := currentWorkflow st; workflows := ws;
     workflowRuns := workflowRuns st; isRunning := isRunning st;
     localStorage := localStorage st; awaiting := awaiting st |}.

Definition set_workflowRuns (rs : list WorkflowRun.t) (st : State) : State :=
  {| currentWorkflow := currentWorkflow st; workflows := workflows st;
     workflowRuns := rs; isRunning := isRunning st;
     localStorage := localStorage st; awaiting := awaiting st |}.

Definition set_isRunning (b : bool) (st : State) : State :=
  {| currentWorkflow := currentWorkflow st; workflows := workflows st;
     workflowRuns := workflowRuns st; isRunning := b;
     localStorage := localStorage st; awaiting := awaiting st |}.

Definition set_localStorage (item : option Text) (st : State) : State :=
  {| currentWorkflow := currentWorkflow st; workflows := workflows st;
     workflowRuns := workflowRuns st; isRunning := isRunning st;
     localStorage := item; awaiting := awaiting st |}.

Definition set_awaiting (ks : list WorkflowRun.t) (st : State) : State :=
  {| currentWorkflow := currentWorkflow st; workflows := workflows st;
     workflowRuns := workflowRuns st; isRunning := isRunning st;
     localStorage := localStorage st; awaiting := ks |}.

(** [(w: Workflow) => w.id === workflowId]. *)
Definition has_id (workflowId : string) (w : JsValue) : Completion bool :=
  i <- prop "id" w ;; Normal (is_string workflowId i).

(** ** saveWorkflow *)

(** The [workflow] object built at the top of [saveWorkflow]. *)
Definition saved_workflow (st : State) (clk : Clock)
    (name description : string) (nodes edges : list JsValue) (outputs : number)
  : Workflow.t :=
  let now := toISOString clk in
  let fresh := "workflow-" ++ decimal (Date_now clk) in
  Workflow.make
    (match currentWorkflow st with
     | Some c => str_or (Workflow.id c) fresh
     | None => fresh
     end)
    name description nodes edges outputs
    (match currentWorkflow st with
     | Some c => str_or (Workflow.createdAt c) now
     | None => now
     end)
    now.

(** The updater handed to [setWorkflows] by [saveWorkflow]. *)
Definition upsert (workflow : Workflow.t) (prev : list Workflow.t) : list Workflow.t :=
  match find (fun w => Workflow.id w =? Workflow.id workflow) prev with
  | Some _ =>
      map (fun w => if Workflow.id w =? Workflow.id workflow then workflow else w) prev
  | None => prev ++ [workflow]
  end.

(** The [localStorage] part of [saveWorkflow]: the new text of the item. *)
Definition store_workflow (item : option Text) (workflow : Workflow.t) : Completion Text :=
  parsed <- JSON_parse (item_or_empty_array item) ;;
  savedWorkflows <- as_array parsed ;;
  existingIndex <- findIndex (has_id (Workflow.id workflow)) savedWorkflows 0 ;;
  Normal (JSON_stringify (JArr
    match existingIndex with
    | Some i => assign_index savedWorkflows i (Workflow.toJs workflow)
    | None => savedWorkflows ++ [Workflow.toJs workflow]
    end)).

(** [saveWorkflow(name, description, nodes, edges, outputs)].  The two
    state updates are issued before [localStorage] is touched, so they
    stand even when that part throws. *)
Definition saveWorkflow (st : State) (clk : Clock)
    (name description : string) (nodes edges : list JsValue) (outputs : number)
  : State * Completion unit :=
  let workflow := saved_workflow st clk name description nodes edges outputs in
  let st1 := set_currentWorkflow (Some workflow)
               (set_workflows (upsert workflow (workflows st)) st) in
  match store_workflow (localStorage st) workflow with
  | Normal text => (set_localStorage (Some text) st1, Normal tt)
  | Throw e => (st1, Throw e)
  end.

(** ** loadWorkflow *)

(** What [loadWorkflow] hands back.  [untyped]: the object stored under the
    id does not have the fields of [interface Workflow]; the component
    would go on with it as it is, the typed state of this development
    cannot hold it and is left as it was. *)
Inductive Loaded : Type :=
| found (w : Workflow.t)
| not_found                      (* returns null *)
| untyped (v : JsValue)          (* an object with that id that is no Workflow *).

Definition loadWorkflow (st : State) (workflowId : string) : State * Completion Loaded :=
  match (parsed <- JSON_parse (item_or_empty_array (localStorage st)) ;;
         savedWorkflows <- as_array parsed ;;
         find_value (has_id workflowId) savedWorkflows) with
  | Throw e => (st, Throw e)
  | Normal None => (st, Normal not_found)
  | Normal (Some v) =>
      match Workflow.ofJs v with
      | None => (st, Normal (untyped v))
      | Some workflow =>
          (set_workflows
             (match find (fun w => Workflow.id w =? workflowId) (workflows st) with
              | None => workflows st ++ [workflow]
              | Some _ => workflows st
              end)
             (set_currentWorkflow (Some workflow) st),
           Normal (found workflow))
      end
  end.

(** ** deleteWorkflow *)

Definition deleteWorkflow (st : State) (workflowId : string) : State * Completion unit :=
  let st1 := set_workflows
               (filter (fun w => negb (Workflow.id w =? workflowId)) (workflows st)) st in
  match (parsed <- JSON_parse (item_or_empty_array (localStorage st)) ;;
         savedWorkflows <- as_array parsed ;;
         filter_values (fun w => b <- has_id workflowId w ;; Normal (negb b)) savedWorkflows) with
  | Throw e => (st1, Throw e)
  | Normal filtered =>
      let st2 := set_localStorage (Some (JSON_stringify (JArr filtered))) st1 in
      (match currentWorkflow st with
       | Some c => if Workflow.id c =? workflowId then set_currentWorkflow None st2 else st2
       | None => st2
       end, Normal tt)
  end.

(** ** runWorkflow *)

(** The [run] object created once the workflow is found. *)
Definition new_run (clk : Clock) (workflowId : string) (workflow : Workflow.t)
  : WorkflowRun.t :=
  WorkflowRun.make
    ("run-" ++ decimal (Date_now clk))
    workflowId
    running
    (toISOString clk)
    None
    ["Starting workflow: " ++ Workflow.name workflow]
    None.

(** [runWorkflow(workflowId)] up to its [await]: nothing happens for an
    unknown id; otherwise [isRunning] is raised, the run is appended and
    the call suspends on the two-second timer. *)
Definition runWorkflow_start (st : State) (clk : Clock) (workflowId : string) : State :=
  match find (fun w => Workflow.id w =? workflowId) (workflows st) with
  | None => st
  | Some workflow =>
      let run := new_run clk workflowId workflow in
      set_awaiting (awaiting st ++ [run])
        (set_workflowRuns (workflowRuns st ++ [run])
           (set_isRunning true st))
  end.

(** How an awaited promise settles. *)
Inductive Settled : Type :=
| Fulfilled
| Rejected (error : string).

(** [new Promise((resolve) => setTimeout(resolve, 2000))]: its executor
    never rejects. *)
Definition timer : Settled := Fulfilled.

Definition completedRun (run : WorkflowRun.t) (clk : Clock) : WorkflowRun.t :=
  WorkflowRun.make
    (WorkflowRun.id run)
    (WorkflowRun.workflowId run)
    completed
    (WorkflowRun.startedAt run)
    (Some (toISOString clk))
    (WorkflowRun.logs run ++
       ["Executing nodes in sequence...";
        "All nodes completed successfully";
        "Workflow execution finished"])
    (Some (JObj [("success", JBool true);
                 ("message", JStr "Workflow completed successfully")])).

Definition failedRun (run : WorkflowRun.t) (clk : Clock) (error : string) : WorkflowRun.t :=
  WorkflowRun.make
    (WorkflowRun.id run)
    (WorkflowRun.workflowId run)
    failed
    (WorkflowRun.startedAt run)
    (Some (toISOString clk))
    (WorkflowRun.logs run ++ ["Error: " ++ error])
    (WorkflowRun.result run).

(** The rest of [runWorkflow] after the [await], for the call that created
    [run]: the [try] body when the promise fulfilled, the [catch] body when
    it rejected, then [finally]. *)
Definition runWorkflow_settle (st : State) (run : WorkflowRun.t) (clk : Clock)
    (outcome : Settled) : State :=
  let settledRun :=
    match outcome with
    | Fulfilled => completedRun run clk
    | Rejected error => failedRun run clk error
    end in
  set_isRunning false
    (set_workflowRuns
       (map (fun r => if WorkflowRun.id r =? WorkflowRun.id run then settledRun else r)
            (workflowRuns st))
       st).

(** The timer of the [k]-th suspended call fires. *)
Definition runWorkflow_resume (st : State) (k : nat) (clk : Clock) : State :=
  match nth_error (awaiting st) k with
  | None => st
  | Some run =>
      runWorkflow_settle
        (set_awaiting (firstn k (awaiting st) ++ skipn (S k) (awaiting st)) st)
        run clk timer
  end.

(** One whole call, from the click to the end of the timer, when nothing
    else happens in between. *)
Definition runWorkflow (st : State) (clk clk' : Clock) (workflowId : string) : State :=
  let st1 := runWorkflow_start st clk workflowId in
  runWorkflow_resume st1 (List.length (awaiting st)) clk'.

(** ** The provider as a transition system *)

Inductive Op : Type :=
| op_saveWorkflow (clk : Clock) (name description : string)
    (nodes edges : list JsValue) (outputs : number)
| op_loadWorkflow (workflowId : string)
| op_deleteWorkflow (workflowId : string)
| op_setCurrentWorkflow (workflow : option Workflow.t)
| op_runWorkflow (clk : Clock) (workflowId : string)
| op_timer (k : nat) (clk : Clock).

Definition step (st : State) (op : Op) : State :=
  match op with
  | op_saveWorkflow clk name description nodes edges outputs =>
      fst (saveWorkflow st clk name description nodes edges outputs)
  | op_loadWorkflow workflowId => fst (loadWorkflow st workflowId)
  | op_deleteWorkflow workflowId => fst (deleteWorkflow st workflowId)
  | op_setCurrentWorkflow workflow => set_currentWorkflow workflow st
  | op_runWorkflow clk workflowId => runWorkflow_start st clk workflowId
  | op_timer k clk => runWorkflow_resume st k clk
  end.

Definition exec (st : State) (ops : list Op) : State := fold_left step ops st.

(** The provider as mounted: no run yet, no call in flight. *)
Definition mounted (st : State) : Prop :=
  workflowRuns st = [] /\ awaiting st = [] /\ isRunning st = false.

(** ** Predicates on states and runs *)

(** The runs, the suspended calls and [isRunning] are the same in both
    states. *)
Definition keeps_runs (st st' : State) : Prop :=
  workflowRuns st' = workflowRuns st /\
  awaiting st' = awaiting st /\
  isRunning st' = isRunning st.

(** In the states the provider reaches no run is ever [failed]: the timer
    promise only fulfils, so the [catch] branch is never taken. *)
Definition never_failed (st : State) : Prop :=
  Forall (fun r => WorkflowRun.status r <> failed) (workflowRuns st).

(** The workflow list, the current workflow and the stored item are the
    same in both states. *)
Definition keeps_graph (st st' : State) : Prop :=
  workflows st' = workflows st /\
  currentWorkflow st' = currentWorkflow st /\
  localStorage st' = localStorage st.

(** [l] is an initial segment of [l']. *)
Definition prefix (l l' : list string) : Prop := exists rest, l' = (l ++ rest)%list.



End Provider.

(* ===================================================================== *)
(** * The react-flow editor (WorkFlowUI) *)
(* ===================================================================== *)

Module Editor.
Import Js.

(** [saveLocal(nodes, edges)]: the new text of the item [STORAGE_KEY]. *)
Definition saveLocal (nodes edges : list JsValue) : option Text :=
  Some (JSON_stringify (JObj [("nodes", JArr nodes); ("edges", JArr edges)])).

(** [loadLocal()]: [None] is [null]; the pair is [{ nodes, edges }]. *)
Definition loadLocal (item : option Text) : option (JsValue * JsValue) :=
  match item with
  | None | Some empty_text => None
  | Some raw =>
      match (parsed <- JSON_parse raw ;;
             nodes <- prop "nodes" parsed ;;
             edges <- prop "edges" parsed ;;
             Normal (nullish_or nodes (JArr []), nullish_or edges (JArr []))) with
      | Normal loaded => Some loaded
      | Throw _ => None
      end
  end.

(** react-flow's [Connection]; [None] is [null]. *)
Record Connection : Type := {
  source : option string;
  target : option string;
  sourceHandle : option string;
  targetHandle : option string
}.

Definition nullable (o : option string) : JsValue :=
  match o with Some s => JStr s | None => JNull end.

(** [v === o] for a string or [null]. *)
Definition same_nullable (o : option string) (v : JsValue) : bool :=
  match o, v with
  | Some s, JStr s' => s' =? s
  | None, JNull => true
  | _, _ => false
  end.

(** [String.prototype.trim] and [toLowerCase].  A string is held as the
    sequence of its UTF-16 code units, for texts whose code units are below
    256 (Latin-1).  The white space and line terminators in that range are
    U+0009 to U+000D, U+0020 and U+00A0; its upper-case letters are A to Z
    and U+00C0 to U+00DE without the multiplication sign U+00D7, each 32
    below its lower-case letter. *)
Definition is_space (c : ascii) : bool :=
  let n := nat_of_ascii c in
  (n =? 32)%nat || ((9 <=? n)%nat && (n <=? 13)%nat) || (n =? 160)%nat.

Fixpoint trim_start (s : string) : string :=
  match s with
  | String c rest => if is_space c then trim_start rest else s
  | EmptyString => EmptyString
  end.

Fixpoint trim_end (s : string) : string :=
  match s with
  | EmptyString => EmptyString
  | String c rest =>
      match trim_end rest with
      | EmptyString => if is_space c then EmptyString else String c EmptyString
      | kept => String c kept
      end
  end.

Definition trim (s : string) : string := trim_end (trim_start s).

Definition lower (c : ascii) : ascii :=
  let n := nat_of_ascii c in
  if ((65 <=? n)%nat && (n <=? 90)%nat) ||
     ((192 <=? n)%nat && (n <=? 222)%nat && negb (n =? 215)%nat)
  then ascii_of_nat (n + 32) else c.

Fixpoint toLowerCase (s : string) : string :=
  match s with
  | EmptyString => EmptyString
  | String c rest => String (lower c) (toLowerCase rest)
  end.

(** [isIf]: whether the connection leaves a [logic.if] node. *)
Definition isIf (nodes : list JsValue) (conn : Connection) : Completion bool :=
  src <- find_value (fun n => i <- prop "id" n ;; Normal (same_nullable (source conn) i)) nodes ;;
  match src with
  | None => Normal false
  | Some n => t <- prop "type" n ;; Normal (is_string "logic.if" t)
  end.

(** The [label] of the new edge; [answer] is what [prompt] returned
    ([None] when the dialog was dismissed). *)
Definition branch_label (is_if : bool) (answer : option string) : option string :=
  if is_if then
    match answer with
    | None => None
    | Some text =>
        let ans := toLowerCase (trim text) in
        if (ans =? "true") || (ans =? "false") then Some ans else None
    end
  else None.

Section OnConnect.
(** From react-flow: [addEdge] and the value of [MarkerType.ArrowClosed]. *)
Variable addEdge : JsValue -> list JsValue -> list JsValue.
Variable ArrowClosed : string.

(** The edge handed to [addEdge]. *)
Definition new_edge (conn : Connection) (label : option string) : JsValue :=
  JObj [("source", nullable (source conn));
        ("sourceHandle", nullable (sourceHandle conn));
        ("target", nullable (target conn));
        ("targetHandle", nullable (targetHandle conn));
        ("type", JStr "default");
        ("data", match label with
                 | Some l => JObj [("condition", JStr l)]
                 | None => JUndefined
                 end);
        ("markerEnd", JObj [("type", JStr ArrowClosed)]);
        ("label", match label with Some l => JStr l | None => JUndefined end)].

(** [onConnect(conn)]: the new list of edges. *)
Definition onConnect (nodes : list JsValue) (answer : option string)
    (conn : Connection) (eds : list JsValue) : Completion (list JsValue) :=
  is_if <- isIf nodes conn ;;
  Normal (addEdge (new_edge conn (branch_label is_if answer)) eds).
End OnConnect.

(** [updateSelected(patch)]; [selected] is the id of the selected node,
    [None] when no node is selected. *)
Definition updateSelected (selected : option string) (patch : JsValue)
    (nds : list JsValue) : Completion (list JsValue) :=
  match selected with
  | None => Normal nds
  | Some i => Obj.map_values (Obj.patch_data i patch) nds
  end.

End Editor.

(* ===================================================================== *)
(** * The form builder (FormBuilder) *)
(* ===================================================================== *)

Module FormBuilder.
Import Js.

Inductive Mode : Type := builder | preview.

(** The text of [error.message]: the literal given to [new Error], or the
    engine's own wording for the errors it throws itself. *)
Inductive Message : Type :=
| literal (text : string)
| engine (e : JsError).

Definition message_of (e : JsError) : Message :=
  match e with
  | Thrown text => literal text
  | _ => engine e
  end.

(** The [useState] cells of [FormBuilder] that [handleImport] touches. *)
Record State : Type := {
  schema : JsValue;
  mode : Mode;
  importText : Text;
  showImportModal : bool;
  importError : Message
}.

Definition invalid_schema_message : string :=
  "Invalid schema: must have title and elements array".
Definition invalid_element_message : string :=
  "Invalid element: missing required fields".

(** The loop [for (const element of parsed.elements)]. *)
Fixpoint validate_elements (elements : list JsValue) : Completion unit :=
  match elements with
  | [] => Normal tt
  | element :: rest =>
      i <- prop "id" element ;;
      f <- prop "fieldName" element ;;
      t <- prop "type" element ;;
      if negb (truthy i) || negb (truthy f) || negb (truthy t)
      then Throw (Thrown invalid_element_message)
      else validate_elements rest
  end.

(** The [try] body of [handleImport] up to [setSchema]. *)
Definition validate_import (text : Text) : Completion JsValue :=
  parsed <- JSON_parse text ;;
  title <- prop "title" parsed ;;
  elements <- prop "elements" parsed ;;
  if negb (truthy title) || negb (isArray elements)
  then Throw (Thrown invalid_schema_message)
  else
    items <- as_array elements ;;
    _ <- validate_elements items ;;
    Normal parsed.

(** [handleImport()].  Whatever the [try] body throws is an [Error], so the
    [catch] always shows [error.message]; its fallback text is never
    used. *)
Definition handleImport (st : State) : State :=
  match validate_import (importText st) with
  | Normal parsed =>
      {| schema := parsed; mode := builder; importText := empty_text;
         showImportModal := false; importError := literal "" |}
  | Throw error =>
      {| schema := schema st; mode := mode st; importText := importText st;
         showImportModal := showImportModal st; importError := message_of error |}
  end.

(** ** Every problem of a parsed schema, for comparison *)

(** Each check of [handleImport] that a parsed schema fails, none left out:
    what a collecting validator would report. *)
Inductive Violation : Type :=
| not_an_object                      (* the schema is null *)
| invalid_schema                     (* no title, or elements is no array *)
| unreadable_element (index : nat)   (* the element is null *)
| invalid_element (index : nat)      (* id, fieldName or type is missing *).

Definition violation_message (v : Violation) : Message :=
  match v with
  | not_an_object | unreadable_element _ => engine TypeError
  | invalid_schema => literal invalid_schema_message
  | invalid_element _ => literal invalid_element_message
  end.

Fixpoint element_violations (elements : list JsValue) (i : nat) : list Violation :=
  match elements with
  | [] => []
  | element :: rest =>
      match prop "id" element, prop "fieldName" element, prop "type" element with
      | Normal a, Normal b, Normal c =>
          if truthy a && truthy b && truthy c then element_violations rest (S i)
          else invalid_element i :: element_violations rest (S i)
      | _, _, _ => unreadable_element i :: element_violations rest (S i)
      end
  end.

Definition all_violations (parsed : JsValue) : list Violation :=
  match prop "title" parsed, prop "elements" parsed with
  | Normal title, Normal elements =>
      (if truthy title && isArray elements then [] else [invalid_schema]) ++
      match elements with
      | JArr items => element_violations items 0
      | _ => []
      end
  | _, _ => [not_an_object]
  end.

End FormBuilder.

(* ===================================================================== *)
(** * The validator of the specification *)
(* ===================================================================== *)

Module Validator.
Import Js.

(** Modelled from the spec: the repository has no validator of workflows;
    this is the check of section 4.1 that every edge's [source] and
    [target] name a node of the workflow (error kind [DanglingEdge]). *)
Definition names_node (nodes : list JsValue) (endpoint : Completion JsValue) : bool :=
  match endpoint with
  | Normal (JStr i) =>
      existsb (fun n => match prop "id" n with
                        | Normal v => is_string i v
                        | Throw _ => false
                        end) nodes
  | _ => false
  end.

Definition dangling_edges (w : Provider.Workflow.t) : list JsValue :=
  filter (fun e => negb (names_node (Provider.Workflow.nodes w) (prop "source" e) &&
                         names_node (Provider.Workflow.nodes w) (prop "target" e)))
         (Provider.Workflow.edges w).

Definition passes (w : Provider.Workflow.t) : bool :=
  match dangling_edges w with [] => true | _ => false end.

End Validator.

(* ===================================================================== *)
(** * Sample inputs *)
(* ===================================================================== *)

Module Sample.
Import Js Provider.

Definition node (i type : string) (data : list (string * JsValue)) : JsValue :=
  JObj [("id", JStr i); ("type", JStr type);
        ("position", JObj [("x", JNum 250%float); ("y", JNum 100%float)]);
        ("data", JObj data)].

Definition edge (i src handle tgt : string) : JsValue :=
  JObj [("id", JStr i); ("source", JStr src); ("sourceHandle", JStr handle);
        ("target", JStr tgt)].

Definition clock (ms : N) (iso : string) : Clock :=
  {| Date_now := ms; toISOString := iso |}.

Definition t0 : Clock := clock 1700000000000 "2023-11-14T22:13:20.000Z".
Definition t1 : Clock := clock 1700000002000 "2023-11-14T22:13:22.000Z".
Definition t2 : Clock := clock 1700000002001 "2023-11-14T22:13:22.001Z".

(** A manual trigger wired to a node that does not exist. *)
Definition dangling : Workflow.t :=
  Workflow.make "workflow-1" "Broken" ""
    [node "1" "workflow" [("label", JStr "Manual Trigger"); ("nodeType", JStr "manual")]]
    [edge "e1" "1" "0" "ghost"]
    1%float "2023-11-14T22:00:00.000Z" "2023-11-14T22:00:00.000Z".

(** trigger -> if -> (port 1: telegram, port 0: email). *)
Definition branching : Workflow.t :=
  Workflow.make "workflow-2" "Branching" ""
    [node "trg" "workflow" [("nodeType", JStr "manual")];
     node "cond" "workflow" [("nodeType", JStr "if");
                             ("config", JObj [("conditionField", JStr "status");
                                              ("operator", JStr "equals");
                                              ("conditionValue", JStr "ok")])];
     node "tg" "workflow" [("nodeType", JStr "telegram")];
     node "em" "workflow" [("nodeType", JStr "email")]]
    [edge "e1" "trg" "0" "cond"; edge "e2" "cond" "1" "tg"; edge "e3" "cond" "0" "em"]
    2%float "2023-11-14T22:00:00.000Z" "2023-11-14T22:00:00.000Z".

Definition other : Workflow.t :=
  Workflow.make "workflow-3" "Other" "" [] [] 1%float
    "2023-11-14T22:01:00.000Z" "2023-11-14T22:01:00.000Z".


Definition store (ws : list Workflow.t) : State :=
  {| currentWorkflow := None; workflows := ws; workflowRuns := [];
     isRunning := false; localStorage := None; awaiting := [] |}.

(** An LLM node whose "Max Tokens" field was cleared:
    [Number.parseInt("")] is [NaN]. *)
Definition llm_node (maxTokens : JsValue) : JsValue :=
  node "llm1" "workflow"
    [("label", JStr "LLM"); ("nodeType", JStr "llm");
     ("config", JObj [("model", JStr "gpt-4"); ("maxTokens", maxTokens)])].


(** Nodes of the react-flow editor: a trigger and an IF node. *)
Definition editor_nodes : list JsValue :=
  [JObj [("id", JStr "n1"); ("type", JStr "trigger.manual");
         ("data", JObj [("label", JStr "manual")])];
   JObj [("id", JStr "n2"); ("type", JStr "logic.if");
         ("data", JObj [("label", JStr "if")])]].


Definition from_trigger : Editor.Connection :=
  {| Editor.source := Some "n1"; Editor.target := Some "n2";
     Editor.sourceHandle := Some "0"; Editor.targetHandle := None |}.

(** The provider while [other] is being edited. *)
Definition editing : State :=
  {| currentWorkflow := Some other; workflows := [branching; other];
     workflowRuns := []; isRunning := false; localStorage := None; awaiting := [] |}.

(** A schema with three problems and one with a single problem. *)
Definition three_problems : JsValue :=
  JObj [("title", JStr "");
        ("elements", JArr [JObj [("id", JStr "a")]; JObj [("fieldName", JStr "Name")]])].

Definition one_problem : JsValue :=
  JObj [("elements", JArr [])].

Definition two_bad_elements : JsValue :=
  JObj [("title", JStr "Contact");
        ("elements", JArr [JObj [("id", JStr "a"); ("fieldName", JStr "Name"); ("type", JStr "text")];
                           JObj [("id", JStr "b")];
                           JObj [("fieldName", JStr "Phone")]])].

Definition importing (text : Text) : FormBuilder.State :=
  {| FormBuilder.schema := JObj [("title", JStr "Untitled Form"); ("elements", JArr [])];
     FormBuilder.mode := FormBuilder.builder;
     FormBuilder.importText := text;
     FormBuilder.showImportModal := true;
     FormBuilder.importError := FormBuilder.literal "" |}.

End Sample.

(* ===================================================================== *)
(** * src/components/workflow-canvas.tsx, node-palette.tsx and the node
      inspector *)
(* ===================================================================== *)

Module Canvas.
Import Js.

(** [onNodeUpdate(nodeId, newData)]: the updater handed to [setNodes]. *)
Definition onNodeUpdate (nodeId : string) (newData : JsValue) (nds : list JsValue)
  : Completion (list JsValue) :=
  Obj.map_values (Obj.patch_data nodeId newData) nds.

(** [type: "trigger" | "action" | "logic"]. *)
Inductive TemplateType : Type := trigger | action | logic.

Definition type_literal (t : TemplateType) : string :=
  match t with
  | trigger => "trigger"
  | action => "action"
  | logic => "logic"
  end.

(** [interface NodeTemplate], without its icon (a React element). *)
Record NodeTemplate : Type := {
  id : string;
  label : string;
  type : TemplateType;
  nodeType : string;
  description : string;
  outputs : number
}.

Definition nodeTemplates : list NodeTemplate :=
  [ {| id := "manual-trigger"; label := "Manual Trigger"; type := trigger;
       nodeType := "manual"; description := "Manually start the workflow";
       outputs := 1%float |};
    {| id := "cron-trigger"; label := "Cron Trigger"; type := trigger;
       nodeType := "cron"; description := "Schedule workflow execution";
       outputs := 1%float |};
    {| id := "webhook-trigger"; label := "Webhook Trigger"; type := trigger;
       nodeType := "webhook"; description := "Trigger via HTTP webhook";
       outputs := 1%float |};
    {| id := "telegram-action"; label := "Send Telegram"; type := action;
       nodeType := "telegram"; description := "Send message to Telegram";
       outputs := 1%float |};
    {| id := "email-action"; label := "Send Email"; type := action;
       nodeType := "email"; description := "Send email message";
       outputs := 1%float |};
    {| id := "llm-action"; label := "LLM Query"; type := action;
       nodeType := "llm"; description := "Query language model";
       outputs := 1%float |};
    {| id := "if-logic"; label := "If Condition"; type := logic;
       nodeType := "if"; description := "Conditional branching";
       outputs := 2%float |};
    {| id := "loop-logic"; label := "Loop"; type := logic;
       nodeType := "loop"; description := "Repeat actions";
       outputs := 1%float |} ].

(** The reducer of [groupedNodes]: [acc[node.type]] is created empty when
    it is missing, then the node is pushed. *)
Definition group_step (acc : list (string * list NodeTemplate)) (node : NodeTemplate)
  : list (string * list NodeTemplate) :=
  match Obj.get (type_literal (type node)) acc with
  | None => Obj.assign (type_literal (type node)) [node] acc
  | Some group => Obj.assign (type_literal (type node)) (group ++ [node])%list acc
  end.

Definition groupedNodes (templates : list NodeTemplate)
  : list (string * list NodeTemplate) :=
  fold_left group_step templates [].

(** Whether a template is of the given type. *)
Definition of_type (t : TemplateType) (node : NodeTemplate) : bool :=
  type_literal (type node) =? type_literal t.

(** What a drag carries: [getData("application/reactflow")] (the empty
    string when that format is absent) and the text under
    ["application/nodedata"]. *)
Record DataTransfer : Type := {
  application_reactflow : string;
  application_nodedata : Text
}.

(** [onDragStart(event, nodeTemplate)] of the palette. *)
Definition onDragStart (nodeTemplate : NodeTemplate) : DataTransfer :=
  {| application_reactflow := "workflow";
     application_nodedata :=
       JSON_stringify
         (JObj [("label", JStr (label nodeTemplate));
                ("type", JStr (type_literal (type nodeTemplate)));
                ("nodeType", JStr (nodeType nodeTemplate));
                ("description", JStr (description nodeTemplate))]) |}.

(** A drag that did not start in the palette. *)
Definition foreign_drag : DataTransfer :=
  {| application_reactflow := ""; application_nodedata := empty_text |}.

(** The drop event: the coordinates of the pointer and of the target's
    bounding rectangle. *)
Record DragEvent : Type := {
  dataTransfer : DataTransfer;
  clientX : number;
  clientY : number;
  bounds_left : number;
  bounds_top : number
}.

(** The [newNode] of [onDrop]. *)
Definition dropped_node (clk : Provider.Clock) (event : DragEvent) (nodeData : JsValue)
  : JsValue :=
  JObj [("id", JStr (Provider.decimal (Provider.Date_now clk)));
        ("type", JStr "workflow");
        ("position", JObj [("x", JNum (clientX event - bounds_left event)%float);
                           ("y", JNum (clientY event - bounds_top event)%float)]);
        ("data", nodeData)].

(** [onDrop(event)]: the node data is parsed before the type is looked
    at. *)
Definition onDrop (clk : Provider.Clock) (event : DragEvent) (nds : list JsValue)
  : Completion (list JsValue) :=
  nodeData <- JSON_parse (application_nodedata (dataTransfer event)) ;;
  if application_reactflow (dataTransfer event) =? "" then Normal nds
  else Normal (nds ++ [dropped_node clk event nodeData])%list.

End Canvas.

Module NodeInspector.
Import Js.

(** The effect on selection: [selectedNode.data.config || {}]. *)
Definition selected_config (selectedNode : JsValue) : Completion JsValue :=
  data <- prop "data" selectedNode ;;
  config <- prop "config" data ;;
  Normal (if truthy config then config else JObj []).

(** [handleConfigChange(key, value)]: the new [config] cell and the
    updater handed to [setNodes] through [onNodeUpdate]. *)
Definition handleConfigChange (selectedId : string) (config : JsValue)
    (key : string) (value : JsValue) (nds : list JsValue)
  : JsValue * Completion (list JsValue) :=
  let newConfig := JObj (Obj.assign key value (Obj.own_props config)) in
  (newConfig, Canvas.onNodeUpdate selectedId (JObj [("config", newConfig)]) nds).

(** [handleLabelChange(newLabel)]. *)
Definition handleLabelChange (selectedId : string) (newLabel : string)
    (nds : list JsValue) : Completion (list JsValue) :=
  Canvas.onNodeUpdate selectedId (JObj [("label", JStr newLabel)]) nds.

End NodeInspector.

(* ===================================================================== *)
(** * src/components/workflow-toolbar.tsx *)
(* ===================================================================== *)

Module Toolbar.
Import Js Provider.

(** The [useState] cells of the toolbar that [handleSave] reads and
    writes. *)
Record State : Type := {
  saveDialogOpen : bool;
  workflowName : string;
  workflowDescription : string;
  workflowOutputs : number
}.

(** [handleSave()]: the canvas is not consulted, the graph saved is empty;
    the dialog closes only if [saveWorkflow] returned. *)
Definition handleSave (tb : State) (st : Provider.State) (clk : Clock)
  : State * Provider.State * Completion unit :=
  let saved := saveWorkflow st clk (workflowName tb) (workflowDescription tb) [] []
                 (workflowOutputs tb) in
  match snd saved with
  | Normal _ =>
      ({| saveDialogOpen := false; workflowName := workflowName tb;
          workflowDescription := workflowDescription tb;
          workflowOutputs := workflowOutputs tb |}, fst saved, Normal tt)
  | Throw e => (tb, fst saved, Throw e)
  end.

(** [handleRun()]. *)
Definition handleRun (st : Provider.State) (clk : Clock) : Provider.State :=
  match currentWorkflow st with
  | Some workflow => runWorkflow_start st clk (Workflow.id workflow)
  | None => st
  end.

(** The Run button, the only caller of [handleRun], is
    [disabled={!currentWorkflow || isRunning}]. *)
Definition run_disabled (st : Provider.State) : bool :=
  match currentWorkflow st with
  | Some _ => isRunning st
  | None => true
  end.

(** A click on the Run button; a disabled button receives none. *)
Definition click_Run (st : Provider.State) (clk : Clock) : Provider.State :=
  if run_disabled st then st else handleRun st clk.

(** Whether the application can issue the operation in this state.
    [runWorkflow] is called by [handleRun] alone, for the current workflow
    and with the Run button enabled; the other operations and the timers
    are not restricted. *)
Definition issued (st : Provider.State) (op : Op) : bool :=
  match op with
  | op_runWorkflow _ workflowId =>
      negb (run_disabled st) &&
      match currentWorkflow st with
      | Some workflow => Workflow.id workflow =? workflowId
      | None => false
      end
  | _ => true
  end.

(** A sequence of operations each of which the application can issue in
    the state the ones before it lead to. *)
Fixpoint session (st : Provider.State) (ops : list Op) : bool :=
  match ops with
  | [] => true
  | op :: rest => issued st op && session (step st op) rest
  end.

(** Runs one at a time: no call of [runWorkflow] in flight, [isRunning]
    false and no run in status [running]; or one call in flight,
    [isRunning] true and no run in status [running] but the run of that
    call. *)
Definition serial (st : Provider.State) : Prop :=
  match awaiting st with
  | [] =>
      isRunning st = false /\
      forall r, In r (workflowRuns st) -> WorkflowRun.status r <> running
  | [run] =>
      isRunning st = true /\
      forall r, In r (workflowRuns st) -> WorkflowRun.status r = running -> r = run
  | _ => False
  end.

End Toolbar.

(* ===================================================================== *)
(** * The form builder: BuilderPanel and PreviewForm *)
(* ===================================================================== *)

Module BuilderPanel.
Import Js.

(** [FormElement['type']]. *)
Inductive ElementType : Type :=
| text | password | textarea | number_input | date | radio | checkbox | file.

Definition type_literal (t : ElementType) : string :=
  match t with
  | text => "text"
  | password => "password"
  | textarea => "textarea"
  | number_input => "number"
  | date => "date"
  | radio => "radio"
  | checkbox => "checkbox"
  | file => "file"
  end.

Record RadioOption : Type := {
  option_id : string;
  option_label : string;
  option_value : string
}.

(** A form element as an object: the fields of [BaseElement] and those of
    its variants; [None] is a field that is missing or [undefined]. *)
Record FormElement : Type := {
  id : string;
  fieldName : string;
  type : ElementType;
  required : option bool;
  placeholder : option string;
  options : option (list RadioOption);
  multiple : option bool;
  accept : option string
}.

Record FormSchema : Type := {
  title : string;
  description : option string;
  elements : list FormElement
}.

(** [Partial<FormElement>]: the fields an update carries. *)
Record Updates : Type := {
  new_id : option string;
  new_fieldName : option string;
  new_type : option ElementType;
  new_required : option bool;
  new_placeholder : option string;
  new_options : option (list RadioOption);
  new_multiple : option bool;
  new_accept : option string
}.

Definition no_updates : Updates :=
  {| new_id := None; new_fieldName := None; new_type := None; new_required := None;
     new_placeholder := None; new_options := None; new_multiple := None;
     new_accept := None |}.

Definition or_else {A : Type} (new : option A) (old : A) : A :=
  match new with Some x => x | None => old end.

Definition or_keep {A : Type} (new old : option A) : option A :=
  match new with Some x => Some x | None => old end.

(** [{ ...el, ...updates }]. *)
Definition merge (el : FormElement) (updates : Updates) : FormElement :=
  {| id := or_else (new_id updates) (id el);
     fieldName := or_else (new_fieldName updates) (fieldName el);
     type := or_else (new_type updates) (type el);
     required := or_keep (new_required updates) (required el);
     placeholder := or_keep (new_placeholder updates) (placeholder el);
     options := or_keep (new_options updates) (options el);
     multiple := or_keep (new_multiple updates) (multiple el);
     accept := or_keep (new_accept updates) (accept el) |}.

(** [createDefaultElement(type)]; [fresh] and [fresh_option] are what the
    two calls of [generateId] return. *)
Definition createDefaultElement (fresh fresh_option : string) (t : ElementType)
  : FormElement :=
  {| id := fresh;
     fieldName := "New " ++ type_literal t ++ " field";
     type := t;
     required := Some false;
     placeholder :=
       match t with
       | radio | checkbox | file | date => None
       | _ => Some "Enter value..."
       end;
     options :=
       match t with
       | radio => Some [ {| option_id := fresh_option; option_label := "Option 1";
                            option_value := "option1" |} ]
       | _ => None
       end;
     multiple := match t with file => Some false | _ => None end;
     accept := match t with file => Some "" | _ => None end |}.

Definition set_elements (els : list FormElement) (prev : FormSchema) : FormSchema :=
  {| title := title prev; description := description prev; elements := els |}.

(** [addElement()]. *)
Definition addElement (fresh fresh_option : string) (selectedType : ElementType)
    (prev : FormSchema) : FormSchema :=
  set_elements (elements prev ++ [createDefaultElement fresh fresh_option selectedType])%list prev.

(** [updateElement(id, updates)]. *)
Definition updateElement (i : string) (updates : Updates) (prev : FormSchema)
  : FormSchema :=
  set_elements
    (map (fun el => if negb (id el =? i) then el else merge el updates) (elements prev))
    prev.

(** [deleteElement(id)]. *)
Definition deleteElement (i : string) (prev : FormSchema) : FormSchema :=
  set_elements (filter (fun el => negb (id el =? i)) (elements prev)) prev.

Fixpoint findIndex (i : string) (els : list FormElement) : option nat :=
  match els with
  | [] => None
  | el :: rest =>
      if id el =? i then Some O
      else match findIndex i rest with Some n => Some (S n) | None => None end
  end.

(** [[a[n], a[n+1]] = [a[n+1], a[n]]] for [n + 1] within the array. *)
Fixpoint swap_with_next (n : nat) (els : list FormElement) : list FormElement :=
  match n, els with
  | O, a :: b :: rest => b :: a :: rest
  | S m, a :: rest => a :: swap_with_next m rest
  | _, _ => els
  end.

Inductive Direction : Type := up | down.

(** [moveElement(id, direction)]. *)
Definition moveElement (i : string) (direction : Direction) (prev : FormSchema)
  : FormSchema :=
  match findIndex i (elements prev) with
  | None => prev
  | Some index =>
      match direction with
      | up =>
          match index with
          | O => prev
          | S newIndex => set_elements (swap_with_next newIndex (elements prev)) prev
          end
      | down =>
          if (List.length (elements prev) <=? S index)%nat then prev
          else set_elements (swap_with_next index (elements prev)) prev
      end
  end.

(** [duplicateElement(id)]; [fresh] is what [generateId] returns.  The
    copy of a radio element spreads its options, which throws when they are
    missing. *)
Definition duplicateElement (fresh : string) (i : string) (prev : FormSchema)
  : Completion FormSchema :=
  match find (fun el => id el =? i) (elements prev), findIndex i (elements prev) with
  | Some element, Some index =>
      match type element, options element with
      | radio, None => Throw TypeError
      | _, _ =>
          let duplicate :=
            merge element
              {| new_id := Some fresh;
                 new_fieldName := Some (fieldName element ++ " (Copy)");
                 new_type := None; new_required := None; new_placeholder := None;
                 new_options := None; new_multiple := None; new_accept := None |} in
          Normal (set_elements
                    (firstn (S index) (elements prev) ++ duplicate ::
                       skipn (S index) (elements prev))%list
                    prev)
      end
  | _, _ => Normal prev
  end.

(** The schema as the object that [JSON.stringify(schema, null, 2)]
    exports. *)
Definition optional {A : Type} (f : A -> JsValue) (o : option A) : JsValue :=
  match o with Some x => f x | None => JUndefined end.

Definition option_toJs (o : RadioOption) : JsValue :=
  JObj [("id", JStr (option_id o)); ("label", JStr (option_label o));
        ("value", JStr (option_value o))].

Definition element_toJs (el : FormElement) : JsValue :=
  JObj [("id", JStr (id el)); ("fieldName", JStr (fieldName el));
        ("type", JStr (type_literal (type el)));
        ("required", optional JBool (required el));
        ("placeholder", optional JStr (placeholder el));
        ("options", optional (fun os => JArr (map option_toJs os)) (options el));
        ("multiple", optional JBool (multiple el));
        ("accept", optional JStr (accept el))].

Definition schema_toJs (schema : FormSchema) : JsValue :=
  JObj [("title", JStr (title schema));
        ("description", optional JStr (description schema));
        ("elements", JArr (map element_toJs (elements schema)))].

Definition exportJson (schema : FormSchema) : Text := JSON_stringify (schema_toJs schema).

(** What [handleImport] asks of an exported element. *)
Definition importable_element (el : FormElement) : bool :=
  negb (id el =? "") && negb (fieldName el =? "").

End BuilderPanel.

Module PreviewForm.
Import Js BuilderPanel.

(** The cells of [PreviewForm]: [values] is a [Record<string, any>],
    [errors] a [Record<string, string>]; both are objects made by object
    literals, given by their own properties. *)
Record State : Type := {
  values : list (string * JsValue);
  errors : list (string * string);
  submitted : bool;
  submittedValues : option (list (string * JsValue))
}.

(** [values[element.id]]. *)
Definition value_of (vals : list (string * JsValue)) (i : string) : Obj.Read JsValue :=
  Obj.read i vals.

(** [!value || (Array.isArray(value) && value.length === 0)]. *)
Definition missing (value : JsValue) : bool :=
  negb (truthy value) ||
  match value with JArr [] => true | _ => false end.

(** The same test on what [values[element.id]] read: a member of
    [Object.prototype] is truthy and no array. *)
Definition lacks (value : Obj.Read JsValue) : bool :=
  match value with
  | Obj.own v => missing v
  | Obj.member => false
  | Obj.nothing => missing JUndefined
  end.

(** The body of the [forEach] of [validateForm]. *)
Definition check_element (vals : list (string * JsValue))
    (newErrors : list (string * string)) (element : FormElement)
  : list (string * string) :=
  match required element with
  | Some true =>
      if lacks (value_of vals (id element))
      then Obj.put (id element) (fieldName element ++ " is required") newErrors
      else newErrors
  | _ => newErrors
  end.

(** [validateForm()]: the new [errors] and the result. *)
Definition validateForm (schema : FormSchema) (vals : list (string * JsValue))
  : list (string * string) * bool :=
  let newErrors := fold_left (check_element vals) (elements schema) [] in
  (newErrors, match newErrors with [] => true | _ => false end).

(** [setValue(id, value)]. *)
Definition setValue (i : string) (value : JsValue) (st : State) : State :=
  {| values := Obj.assign i value (values st);
     errors := match Obj.read i (errors st) with
               | Obj.own message => if message =? "" then errors st
                                    else Obj.assign i "" (errors st)
               | Obj.member => Obj.assign i "" (errors st)
               | Obj.nothing => errors st
               end;
     submitted := submitted st;
     submittedValues := submittedValues st |}.

(** [handleSubmit(e)]. *)
Definition handleSubmit (schema : FormSchema) (st : State) : State :=
  let checked := validateForm schema (values st) in
  if snd checked
  then {| values := values st; errors := fst checked; submitted := true;
          submittedValues := Some (values st) |}
  else {| values := values st; errors := fst checked; submitted := submitted st;
          submittedValues := submittedValues st |}.

(** A [File] as [handleFileChange] records it. *)
Record FileInfo : Type := { file_name : string; file_size : number; file_type : string }.

(** [handleFileChange(elementId, files)]; [None] is [null]. *)
Definition handleFileChange (elementId : string) (files : option (list FileInfo))
    (st : State) : State :=
  match files with
  | None => setValue elementId (JArr []) st
  | Some selected =>
      setValue elementId
        (JArr (map (fun f => JObj [("name", JStr (file_name f));
                                   ("size", JNum (file_size f));
                                   ("type", JStr (file_type f))]) selected))
        st
  end.

(** Whether [validateForm] finds the element wanting. *)
Definition wanting (vals : list (string * JsValue)) (el : FormElement) : bool :=
  match required el with
  | Some true => lacks (value_of vals (id el))
  | _ => false
  end.

(** Whether [validateForm] records a message for the element: under the
    key [__proto__] none is recorded. *)
Definition reported (vals : list (string * JsValue)) (el : FormElement) : bool :=
  wanting vals el && negb (id el =? "__proto__").

End PreviewForm.

(* ===================================================================== *)
(** * Properties: JSON carries exact values unchanged *)
(* ===================================================================== *)

Import Js.

Lemma json_number_exact (n : number) :
  exact_number n = true -> json_number n = JNum n.
Proof.
  unfold exact_number, json_number.
  destruct (is_nan n || is_infinity n); simpl; [discriminate|].
  destruct (is_zero n && get_sign n); simpl; [discriminate|reflexivity].
Qed.

Lemma json_value_exact (v : JsValue) :
  json_exact v = true -> json_value v = v.
Proof.
  induction v as [ | | b | n | s | items IH | props IH] using JsValue_nested_ind;
    simpl; intros E; try reflexivity; try discriminate.
  - now apply json_number_exact.
  - f_equal. induction IH as [|x rest Hx _ IHrest]; simpl in *; [reflexivity|].
    apply andb_true_iff in E as [Ex Er].
    now rewrite Hx, IHrest.
  - f_equal. induction IH as [|[k x] rest Hx _ IHrest]; simpl in *; [reflexivity|].
    apply andb_true_iff in E as [Ex Er].
    rewrite IHrest by assumption.
    destruct x; simpl in *; try discriminate; try reflexivity;
      now rewrite (Hx Ex).
Qed.

Lemma json_values_exact (items : list JsValue) :
  forallb json_exact items = true -> map json_value items = items.
Proof.
  intros E.
  assert (H : json_value (JArr items) = JArr items) by now apply json_value_exact.
  now injection H.
Qed.

(* ===================================================================== *)
(** * Properties of the workflow provider *)
(* ===================================================================== *)

Import Provider.

(** ** What the editing operations leave alone *)

Lemma saveWorkflow_keeps_runs st clk name description nodes edges outputs :
  keeps_runs st (fst (saveWorkflow st clk name description nodes edges outputs)).
Proof.
  unfold saveWorkflow.
  destruct (store_workflow _ _); simpl; repeat split.
Qed.

Lemma loadWorkflow_keeps_runs st workflowId :
  keeps_runs st (fst (loadWorkflow st workflowId)).
Proof.
  unfold loadWorkflow.
  destruct (bind _ _) as [[v|]|e]; simpl; try (repeat split; fail).
  destruct (Workflow.ofJs v); simpl; repeat split.
Qed.

Lemma deleteWorkflow_keeps_runs st workflowId :
  keeps_runs st (fst (deleteWorkflow st workflowId)).
Proof.
  unfold deleteWorkflow.
  destruct (bind _ _) as [filtered|e]; simpl; try (repeat split; fail).
  destruct (currentWorkflow st) as [c|]; [destruct (Workflow.id c =? workflowId)|];
    simpl; repeat split.
Qed.

(** ** runWorkflow, phase by phase *)

Lemma runWorkflow_start_found st clk workflowId workflow :
  find (fun w => Workflow.id w =? workflowId) (workflows st) = Some workflow ->
  runWorkflow_start st clk workflowId =
    set_awaiting (awaiting st ++ [new_run clk workflowId workflow])
      (set_workflowRuns (workflowRuns st ++ [new_run clk workflowId workflow])
         (set_isRunning true st)).
Proof. unfold runWorkflow_start. now intros ->. Qed.

Lemma find_absent (workflowId : string) (ws : list Workflow.t) :
  ~ In workflowId (map Workflow.id ws) ->
  find (fun w => Workflow.id w =? workflowId) ws = None.
Proof.
  induction ws as [|w ws IH]; simpl; [reflexivity|].
  intros H. destruct (String.eqb_spec (Workflow.id w) workflowId) as [E|_].
  - exfalso. apply H. now left.
  - apply IH. intros I. apply H. now right.
Qed.

Lemma find_present (workflowId : string) (ws : list Workflow.t) :
  In workflowId (map Workflow.id ws) ->
  exists w, find (fun w => Workflow.id w =? workflowId) ws = Some w /\
            Workflow.id w = workflowId /\ In w ws.
Proof.
  induction ws as [|w ws IH]; simpl; [intros []|].
  intros H. destruct (String.eqb_spec (Workflow.id w) workflowId) as [E|N].
  - exists w. auto.
  - destruct H as [H|H]; [contradiction|].
    destruct (IH H) as (w' & F & I & M). exists w'. auto.
Qed.

(** The status of every entry after a settle: that of the settled run for
    the entries that bear its id, unchanged for the others. *)
Lemma settle_entry st run clk outcome i r :
  nth_error (workflowRuns st) i = Some r ->
  nth_error (workflowRuns (runWorkflow_settle st run clk outcome)) i =
    Some (if WorkflowRun.id r =? WorkflowRun.id run
          then match outcome with
               | Fulfilled => completedRun run clk
               | Rejected error => failedRun run clk error
               end
          else r).
Proof.
  intros H. unfold runWorkflow_settle. simpl.
  rewrite nth_error_map, H. reflexivity.
Qed.

Lemma settle_ids st run clk outcome :
  map WorkflowRun.id (workflowRuns (runWorkflow_settle st run clk outcome)) =
  map WorkflowRun.id (workflowRuns st).
Proof.
  unfold runWorkflow_settle. simpl. rewrite map_map.
  apply map_ext. intros r.
  destruct (String.eqb_spec (WorkflowRun.id r) (WorkflowRun.id run)) as [E|_];
    [|reflexivity].
  destruct outcome; simpl; now rewrite E.
Qed.

(** ** Invariants of the transition system *)

Lemma exec_snoc st ops op : exec st (ops ++ [op])%list = step (exec st ops) op.
Proof. unfold exec. now rewrite fold_left_app. Qed.

(** No operation removes a run or changes the id of one: the ids of the
    run list only grow at the end. *)
Lemma step_run_ids st op :
  exists extra,
    map WorkflowRun.id (workflowRuns (step st op)) =
    (map WorkflowRun.id (workflowRuns st) ++ extra)%list.
Proof.
  destruct op as [clk n d ns es o | i | i | w | clk i | k clk]; simpl.
  - exists []. rewrite app_nil_r.
    now destruct (saveWorkflow_keeps_runs st clk n d ns es o) as [-> _].
  - exists []. rewrite app_nil_r.
    now destruct (loadWorkflow_keeps_runs st i) as [-> _].
  - exists []. rewrite app_nil_r.
    now destruct (deleteWorkflow_keeps_runs st i) as [-> _].
  - exists []. now rewrite app_nil_r.
  - unfold runWorkflow_start.
    destruct (find _ _) as [w|]; simpl.
    + eexists. rewrite map_app. reflexivity.
    + exists []. now rewrite app_nil_r.
  - unfold runWorkflow_resume.
    destruct (nth_error _ _) as [run|]; exists []; rewrite app_nil_r;
      [|reflexivity].
    now rewrite settle_ids.
Qed.

Lemma exec_run_ids ops : forall st,
  exists extra,
    map WorkflowRun.id (workflowRuns (exec st ops)) =
    (map WorkflowRun.id (workflowRuns st) ++ extra)%list.
Proof.
  induction ops as [|op ops IH]; intros st; simpl.
  - exists []. now rewrite app_nil_r.
  - destruct (step_run_ids st op) as [e1 H1].
    destruct (IH (step st op)) as [e2 H2].
    exists (e1 ++ e2)%list. unfold exec in *. simpl.
    now rewrite H2, H1, app_assoc.
Qed.

Lemma step_never_failed st op : never_failed st -> never_failed (step st op).
Proof.
  unfold never_failed. intros H.
  destruct op as [clk n d ns es o | i | i | w | clk i | k clk]; simpl.
  - now destruct (saveWorkflow_keeps_runs st clk n d ns es o) as [-> _].
  - now destruct (loadWorkflow_keeps_runs st i) as [-> _].
  - now destruct (deleteWorkflow_keeps_runs st i) as [-> _].
  - assumption.
  - unfold runWorkflow_start.
    destruct (find _ _) as [w|]; simpl; [|assumption].
    apply Forall_app. split; [assumption|].
    constructor; [simpl; discriminate|constructor].
  - unfold runWorkflow_resume.
    destruct (nth_error _ _) as [run|]; [|assumption].
    unfold runWorkflow_settle, timer. simpl.
    apply Forall_map. revert H. apply Forall_impl. intros r Hr.
    destruct (WorkflowRun.id r =? WorkflowRun.id run); [simpl; discriminate|assumption].
Qed.

Lemma exec_never_failed ops : forall st, never_failed st -> never_failed (exec st ops).
Proof.
  induction ops as [|op ops IH]; intros st H; [assumption|].
  apply (IH (step st op)). now apply step_never_failed.
Qed.

Lemma mounted_never_failed st : mounted st -> never_failed st.
Proof. intros [E _]. unfold never_failed. rewrite E. constructor. Qed.

(** ** Unknown workflow ids *)

Example new_run_example :
  new_run Sample.t0 "workflow-3" Sample.other =
    WorkflowRun.make "run-1700000000000" "workflow-3" running
      "2023-11-14T22:13:20.000Z" None ["Starting workflow: Other"] None.
Proof. reflexivity. Qed.

(** C9: for a [workflowId] that no workflow of the store bears,
    [runWorkflow] returns without any effect: the state (run list,
    [isRunning], suspended calls and all the rest) is the one before the
    call, at the early return and at the end of the whole call, and there is
    no error to report since the function has no result. *)
Theorem runWorkflow_unknown_id st clk clk' workflowId :
  ~ In workflowId (map Workflow.id (workflows st)) ->
  runWorkflow_start st clk workflowId = st /\
  runWorkflow st clk clk' workflowId = st.
Proof.
  intros H.
  assert (S : runWorkflow_start st clk workflowId = st).
  { unfold runWorkflow_start. now rewrite (find_absent _ _ H). }
  split; [exact S|].
  unfold runWorkflow. rewrite S. unfold runWorkflow_resume.
  now rewrite (proj2 (nth_error_None (awaiting st) (List.length (awaiting st))) (le_n _)).
Qed.

Lemma runWorkflow_unknown_id_witness :
  runWorkflow_start (Sample.store [Sample.other]) Sample.t0 "workflow-9"
    = Sample.store [Sample.other] /\
  runWorkflow (Sample.store [Sample.other]) Sample.t0 Sample.t1 "workflow-9"
    = Sample.store [Sample.other].
Proof.
  apply runWorkflow_unknown_id.
  simpl. intros [H|[]]. discriminate H.
Defined.

(** ** The graph is not touched by a run *)

(** C8: running never mutates the graph model: after the synchronous part
    of [runWorkflow], after the part that follows the timer (whichever way
    the promise settled), and after a whole call, the workflow list - hence
    every workflow's nodes, edges and node data - the current workflow and
    the stored item are exactly what they were. *)
Theorem runWorkflow_keeps_graph st clk clk' workflowId run outcome k :
  keeps_graph st (runWorkflow_start st clk workflowId) /\
  keeps_graph st (runWorkflow_settle st run clk' outcome) /\
  keeps_graph st (runWorkflow_resume st k clk') /\
  keeps_graph st (runWorkflow st clk clk' workflowId).
Proof.
  assert (A : forall s c i, keeps_graph s (runWorkflow_start s c i)).
  { intros s c i. unfold runWorkflow_start.
    destruct (find _ _); repeat split. }
  assert (B : forall s n c, keeps_graph s (runWorkflow_resume s n c)).
  { intros s n c. unfold runWorkflow_resume.
    destruct (nth_error _ _); repeat split. }
  repeat split; try apply A; try apply B.
  all: unfold runWorkflow;
    destruct (B (runWorkflow_start st clk workflowId) (List.length (awaiting st)) clk')
      as (B1 & B2 & B3);
    destruct (A st clk workflowId) as (A1 & A2 & A3); congruence.
Qed.

(** ** No validation before a run *)

(** C1, counterexample: a workflow with an edge to a node that does not
    exist fails the validator, and [runWorkflow] still creates a Run for it
    and records it in the run list. *)
Lemma invalid_workflow_is_run :
  Validator.passes Sample.dangling = false /\
  workflowRuns (Sample.store [Sample.dangling]) = [] /\
  workflowRuns (runWorkflow_start (Sample.store [Sample.dangling]) Sample.t0 "workflow-1")
    = [new_run Sample.t0 "workflow-1" Sample.dangling] /\
  isRunning (runWorkflow_start (Sample.store [Sample.dangling]) Sample.t0 "workflow-1")
    = true.
Proof. vm_compute. repeat split. Qed.

(** C1, as amended: [runWorkflow] performs no validation.  For every
    workflow id found in the store, valid or not, it raises [isRunning] and
    appends exactly one Run, in status [running], whose log starts with the
    workflow's name; nothing is returned to the caller. *)
Theorem runWorkflow_runs_any_stored_workflow st clk workflowId :
  In workflowId (map Workflow.id (workflows st)) ->
  exists workflow,
    In workflow (workflows st) /\ Workflow.id workflow = workflowId /\
    workflowRuns (runWorkflow_start st clk workflowId)
      = (workflowRuns st ++ [new_run clk workflowId workflow])%list /\
    WorkflowRun.status (new_run clk workflowId workflow) = running /\
    WorkflowRun.logs (new_run clk workflowId workflow)
      = ["Starting workflow: " ++ Workflow.name workflow] /\
    isRunning (runWorkflow_start st clk workflowId) = true.
Proof.
  intros H. destruct (find_present _ _ H) as (w & F & I & M).
  exists w. rewrite (runWorkflow_start_found _ _ _ F). simpl. auto 7.
Qed.

Lemma runWorkflow_runs_any_stored_workflow_witness :
  exists workflow,
    In workflow [Sample.dangling] /\ Workflow.id workflow = "workflow-1" /\
    workflowRuns (runWorkflow_start (Sample.store [Sample.dangling]) Sample.t0 "workflow-1")
      = ([] ++ [new_run Sample.t0 "workflow-1" workflow])%list /\
    WorkflowRun.status (new_run Sample.t0 "workflow-1" workflow) = running /\
    WorkflowRun.logs (new_run Sample.t0 "workflow-1" workflow)
      = ["Starting workflow: " ++ Workflow.name workflow] /\
    isRunning (runWorkflow_start (Sample.store [Sample.dangling]) Sample.t0 "workflow-1")
      = true.
Proof.
  apply (runWorkflow_runs_any_stored_workflow (Sample.store [Sample.dangling])).
  simpl. left. reflexivity.
Defined.

(** ** The status of a run *)

(** C2, counterexample: the Run that [runWorkflow] creates is born in
    status ["running"], not ["pending"]. *)
Lemma run_is_created_running :
  exists run,
    workflowRuns (runWorkflow_start (Sample.store [Sample.other]) Sample.t0 "workflow-3")
      = [run] /\
    status_literal (WorkflowRun.status run) = "running" /\
    status_literal (WorkflowRun.status run) <> "pending".
Proof.
  eexists. split; [vm_compute; reflexivity|].
  split; [reflexivity|discriminate].
Qed.

(** C2, as amended: a Run's status is one of [running], [completed] and
    [failed] (there is no pending and no cancelled status).  In every state
    the provider reaches from its mounted state: a Run is created directly
    in status [running]; when the timer of its call fires, every entry that
    bears its id is [completed]; and an entry whose status is terminal
    keeps that very status, at the same place in the list, through every
    further operation. *)
Theorem run_status_machine st0 ops :
  mounted st0 ->
  (forall clk workflowId workflow,
      find (fun w => Workflow.id w =? workflowId) (workflows (exec st0 ops)) = Some workflow ->
      exists run,
        workflowRuns (runWorkflow_start (exec st0 ops) clk workflowId)
          = (workflowRuns (exec st0 ops) ++ [run])%list /\
        WorkflowRun.status run = running) /\
  (forall k clk run r,
      nth_error (awaiting (exec st0 ops)) k = Some run ->
      In r (workflowRuns (runWorkflow_resume (exec st0 ops) k clk)) ->
      WorkflowRun.id r = WorkflowRun.id run ->
      WorkflowRun.status r = completed) /\
  (forall op i r,
      nth_error (workflowRuns (exec st0 ops)) i = Some r ->
      terminal (WorkflowRun.status r) = true ->
      exists r',
        nth_error (workflowRuns (step (exec st0 ops) op)) i = Some r' /\
        WorkflowRun.status r' = WorkflowRun.status r).
Proof.
  intros M.
  pose proof (exec_never_failed ops (mounted_never_failed M)) as NF.
  set (st := exec st0 ops) in *.
  split; [|split].
  - intros clk workflowId workflow F.
    exists (new_run clk workflowId workflow).
    now rewrite (runWorkflow_start_found _ _ _ F).
  - intros k clk run r K I E.
    unfold runWorkflow_resume in I. rewrite K in I.
    unfold runWorkflow_settle, timer in I. simpl in I.
    apply in_map_iff in I as (r0 & <- & _).
    destruct (String.eqb_spec (WorkflowRun.id r0) (WorkflowRun.id run)) as [_|N];
      [reflexivity|].
    contradiction.
  - intros op i r H T.
    assert (C : WorkflowRun.status r = completed).
    { unfold never_failed in NF. rewrite Forall_forall in NF.
      specialize (NF r (nth_error_In _ _ H)).
      destruct (WorkflowRun.status r); [discriminate|reflexivity|contradiction]. }
    destruct op as [clk n d ns es o | w | w | w | clk w | k clk]; simpl.
    + destruct (saveWorkflow_keeps_runs st clk n d ns es o) as [-> _]. eauto.
    + destruct (loadWorkflow_keeps_runs st w) as [-> _]. eauto.
    + destruct (deleteWorkflow_keeps_runs st w) as [-> _]. eauto.
    + eauto.
    + unfold runWorkflow_start. destruct (find _ _); simpl; [|eauto].
      exists r. split; [|reflexivity].
      rewrite nth_error_app1; [assumption|].
      apply nth_error_Some. congruence.
    + unfold runWorkflow_resume. destruct (nth_error (awaiting st) k) as [run|]; [|eauto].
      eexists. split.
      * apply settle_entry. simpl. exact H.
      * unfold timer. destruct (_ =? _); [now rewrite C|reflexivity].
Qed.

Lemma run_status_machine_witness :
  mounted (Sample.store [Sample.other]) /\
  exists r',
    nth_error
      (workflowRuns
         (step (exec (Sample.store [Sample.other])
                     [op_runWorkflow Sample.t0 "workflow-3"; op_timer 0 Sample.t1])
               (op_runWorkflow Sample.t2 "workflow-3"))) 0 = Some r' /\
    WorkflowRun.status r' = completed.
Proof.
  assert (M : mounted (Sample.store [Sample.other])) by (vm_compute; auto).
  split; [exact M|].
  destruct (run_status_machine
              [op_runWorkflow Sample.t0 "workflow-3"; op_timer 0 Sample.t1] M)
    as (_ & _ & H).
  apply (H (op_runWorkflow Sample.t2 "workflow-3") 0
           (completedRun (new_run Sample.t0 "workflow-3" Sample.other) Sample.t1));
    reflexivity.
Defined.

(** ** A run ends *)





(** ** The log of a run *)

(** Where the log does only grow: an entry's log before a step is a prefix
    of its log after it, unless the timer that fires belongs to another
    call whose run bears the same id. *)
Lemma logs_grow_unless_ids_collide st op i r :
  nth_error (workflowRuns st) i = Some r ->
  (forall k clk run, op = op_timer k clk -> nth_error (awaiting st) k = Some run ->
     WorkflowRun.id run = WorkflowRun.id r -> run = r) ->
  exists r',
    nth_error (workflowRuns (step st op)) i = Some r' /\
    prefix (WorkflowRun.logs r) (WorkflowRun.logs r').
Proof.
  intros H U.
  assert (Same : exists r', nth_error (workflowRuns st) i = Some r' /\
                            prefix (WorkflowRun.logs r) (WorkflowRun.logs r')).
  { exists r. split; [assumption|]. exists []. now rewrite app_nil_r. }
  destruct op as [clk n d ns es o | w | w | w | clk w | k clk]; simpl.
  - now destruct (saveWorkflow_keeps_runs st clk n d ns es o) as [-> _].
  - now destruct (loadWorkflow_keeps_runs st w) as [-> _].
  - now destruct (deleteWorkflow_keeps_runs st w) as [-> _].
  - assumption.
  - unfold runWorkflow_start. destruct (find _ _); simpl; [|assumption].
    exists r. split; [|exists []; now rewrite app_nil_r].
    rewrite nth_error_app1; [assumption|].
    apply nth_error_Some. congruence.
  - unfold runWorkflow_resume.
    destruct (nth_error (awaiting st) k) as [run|] eqn:K; [|assumption].
    eexists. split; [apply settle_entry; simpl; exact H|].
    destruct (String.eqb_spec (WorkflowRun.id r) (WorkflowRun.id run)) as [E|_].
    + rewrite (U k clk run eq_refl K (eq_sym E)). unfold timer. simpl. now eexists.
    + exists []. now rewrite app_nil_r.
Qed.

(** An entry keeps its id through every operation. *)
Lemma step_keeps_id st op i r r' :
  nth_error (workflowRuns st) i = Some r ->
  nth_error (workflowRuns (step st op)) i = Some r' ->
  WorkflowRun.id r' = WorkflowRun.id r.
Proof.
  intros H H'. destruct (step_run_ids st op) as [extra E].
  assert (M : nth_error (map WorkflowRun.id (workflowRuns (step st op))) i
              = Some (WorkflowRun.id r)).
  { rewrite E, nth_error_app1.
    - now rewrite nth_error_map, H.
    - rewrite length_map. apply nth_error_Some. congruence. }
  rewrite nth_error_map, H' in M. now injection M.
Qed.

(** ** Runs started from the toolbar *)

(** The operation [runWorkflow] that the application issues is the click
    on the enabled Run button. *)
Lemma issued_run_is_click st clk workflowId :
  Toolbar.issued st (op_runWorkflow clk workflowId) = true ->
  step st (op_runWorkflow clk workflowId) = Toolbar.click_Run st clk.
Proof.
  simpl. unfold Toolbar.click_Run, Toolbar.handleRun.
  intros H. apply andb_true_iff in H as [D E].
  apply negb_true_iff in D. rewrite D.
  destruct (currentWorkflow st) as [c|]; [|discriminate].
  apply String.eqb_eq in E. now rewrite E.
Qed.

Lemma session_snoc ops : forall st op,
  Toolbar.session st (ops ++ [op]) =
  Toolbar.session st ops && Toolbar.issued (exec st ops) op.
Proof.
  induction ops as [|o ops IH]; intros st op; simpl.
  - now rewrite andb_true_r.
  - rewrite IH. unfold exec. simpl. now rewrite andb_assoc.
Qed.

Lemma mounted_serial st : mounted st -> Toolbar.serial st.
Proof.
  intros (R & A & B). unfold Toolbar.serial. rewrite A, R. split; [exact B|].
  intros r [].
Qed.

Lemma step_serial st op :
  Toolbar.serial st -> Toolbar.issued st op = true -> Toolbar.serial (step st op).
Proof.
  intros S I.
  assert (Keep : forall st', keeps_runs st st' -> Toolbar.serial st').
  { intros st' (R & A & B). unfold Toolbar.serial in *. now rewrite R, A, B. }
  destruct op as [clk n d ns es o | i | i | w | clk i | k clk].
  - apply Keep, saveWorkflow_keeps_runs.
  - apply Keep, loadWorkflow_keeps_runs.
  - apply Keep, deleteWorkflow_keeps_runs.
  - apply Keep. repeat split.
  - simpl in I. apply andb_true_iff in I as [D _].
    apply negb_true_iff in D. unfold Toolbar.run_disabled in D.
    destruct (currentWorkflow st) as [c|]; [|discriminate].
    simpl. unfold runWorkflow_start.
    destruct (find _ _) as [w|]; [|exact S].
    unfold Toolbar.serial in *. simpl.
    destruct (awaiting st) as [|run [|run' rest]].
    + simpl. destruct S as [_ S]. split; [reflexivity|].
      intros r H R. apply in_app_or in H as [H|[<-|[]]]; [|reflexivity].
      now destruct (S r H).
    + destruct S as [S _]. congruence.
    + destruct S.
  - simpl. unfold runWorkflow_resume.
    destruct (nth_error (awaiting st) k) as [run|] eqn:K; [|exact S].
    unfold Toolbar.serial in *.
    destruct (awaiting st) as [|run0 [|run' rest]].
    + destruct k; discriminate K.
    + destruct k as [|k]; [|destruct k; discriminate K].
      simpl in K. injection K as <-. simpl.
      destruct S as [_ S]. split; [reflexivity|].
      intros r H R. apply in_map_iff in H as (r0 & E & H).
      destruct (String.eqb_spec (WorkflowRun.id r0) (WorkflowRun.id run0)) as [Q|N].
      * subst r. unfold timer in R. discriminate R.
      * subst r. apply N. now rewrite (S r0 H R).
    + destruct S.
Qed.

Lemma session_serial ops : forall st,
  Toolbar.serial st -> Toolbar.session st ops = true -> Toolbar.serial (exec st ops).
Proof.
  induction ops as [|op ops IH]; intros st S H; [exact S|].
  simpl in H. apply andb_true_iff in H as [I H].
  apply (IH (step st op)); [now apply step_serial|exact H].
Qed.

(** C7: while a Run is [running] its log only grows.  In every state the
    application reaches from the mounted provider - [runWorkflow] being
    called by the Run button alone, which is disabled while [isRunning] -
    whatever operation comes next, an entry of the run list in status
    [running] is found at the same place afterwards, with the same id and
    with a log of which its previous log is a prefix: nothing is reordered,
    replaced or removed. *)
Theorem running_log_only_grows st0 ops op :
  mounted st0 ->
  Toolbar.session st0 (ops ++ [op]) = true ->
  forall i r,
    nth_error (workflowRuns (exec st0 ops)) i = Some r ->
    WorkflowRun.status r = running ->
    exists r',
      nth_error (workflowRuns (step (exec st0 ops) op)) i = Some r' /\
      WorkflowRun.id r' = WorkflowRun.id r /\
      prefix (WorkflowRun.logs r) (WorkflowRun.logs r').
Proof.
  intros M H i r Hr R.
  rewrite session_snoc in H. apply andb_true_iff in H as [H I].
  pose proof (@session_serial ops st0 (mounted_serial M) H) as S.
  set (st := exec st0 ops) in *. clearbody st.
  destruct (@logs_grow_unless_ids_collide st op i r Hr) as (r' & H' & P).
  - intros k clk run _ K _.
    unfold Toolbar.serial in S.
    destruct (awaiting st) as [|run0 [|run' rest]].
    + destruct k; discriminate K.
    + destruct k as [|k]; [|destruct k; discriminate K].
      simpl in K. injection K as <-. destruct S as [_ S].
      symmetry. apply S; [|exact R]. exact (nth_error_In _ _ Hr).
    + destruct S.
  - exists r'. split; [exact H'|]. split; [|exact P].
    exact (step_keeps_id _ _ _ Hr H').
Qed.

Lemma running_log_only_grows_witness :
  mounted (Sample.store [Sample.branching]) /\
  Toolbar.session (Sample.store [Sample.branching])
    [op_setCurrentWorkflow (Some Sample.branching); op_runWorkflow Sample.t0 "workflow-2";
     op_timer 0 Sample.t1] = true /\
  exists r',
    nth_error
      (workflowRuns
         (exec (Sample.store [Sample.branching])
               [op_setCurrentWorkflow (Some Sample.branching);
                op_runWorkflow Sample.t0 "workflow-2"; op_timer 0 Sample.t1])) 0 = Some r' /\
    WorkflowRun.id r' = "run-1700000000000" /\
    prefix ["Starting workflow: Branching"] (WorkflowRun.logs r').
Proof.
  assert (M : mounted (Sample.store [Sample.branching])) by (vm_compute; auto).
  split; [exact M|]. split; [reflexivity|].
  apply (@running_log_only_grows (Sample.store [Sample.branching])
           [op_setCurrentWorkflow (Some Sample.branching); op_runWorkflow Sample.t0 "workflow-2"]
           (op_timer 0 Sample.t1) M eq_refl 0
           (new_run Sample.t0 "workflow-2" Sample.branching));
    reflexivity.
Defined.

(** ** saveWorkflow and the ids of the list *)

Lemma find_none_absent (i : string) (ws : list Workflow.t) :
  find (fun w => Workflow.id w =? i) ws = None -> ~ In i (map Workflow.id ws).
Proof.
  intros F I. destruct (find_present _ _ I) as (w & F' & _). congruence.
Qed.

Lemma upsert_present workflow ws :
  In (Workflow.id workflow) (map Workflow.id ws) ->
  upsert workflow ws =
    map (fun w => if Workflow.id w =? Workflow.id workflow then workflow else w) ws.
Proof.
  intros I. unfold upsert.
  destruct (find_present _ _ I) as (w & -> & _). reflexivity.
Qed.



Lemma saveWorkflow_workflows st clk name description nodes edges outputs :
  workflows (fst (saveWorkflow st clk name description nodes edges outputs)) =
  upsert (saved_workflow st clk name description nodes edges outputs) (workflows st).
Proof. unfold saveWorkflow. now destruct (store_workflow _ _). Qed.




(** ** A run does not look at the graph *)





Example branch_label_examples :
  Editor.branch_label true (Some "  FALSE ") = Some "false" /\
  Editor.branch_label true (Some "yes") = None /\
  Editor.branch_label true None = None /\
  Editor.branch_label false (Some "true") = None /\
  Editor.isIf Sample.editor_nodes Sample.from_trigger = Normal false.
Proof. vm_compute. repeat split. Qed.




(* ===================================================================== *)
(** * Properties of saving and loading *)
(* ===================================================================== *)










(* ===================================================================== *)
(** * Properties of the form import *)
(* ===================================================================== *)

(** The loop over the elements stops at the first element that fails. *)
Lemma validate_elements_first items : forall i,
  match FormBuilder.element_violations items i with
  | [] => FormBuilder.validate_elements items = Normal tt
  | first :: _ =>
      exists e, FormBuilder.validate_elements items = Throw e /\
                FormBuilder.message_of e = FormBuilder.violation_message first
  end.
Proof.
  induction items as [|element items IH]; intros i; simpl; [reflexivity|].
  destruct element as [ | | b | n | s | l | ps]; simpl;
    try (exists TypeError; split; reflexivity);
    try (eexists; split; reflexivity).
  destruct (truthy match lookup "id" ps with Some x => x | None => JUndefined end),
           (truthy match lookup "fieldName" ps with Some x => x | None => JUndefined end),
           (truthy match lookup "type" ps with Some x => x | None => JUndefined end);
    simpl; try (eexists; split; reflexivity).
  apply IH.
Qed.

(** C6, counterexample: a schema with three problems (no title, two
    elements with missing fields) and a schema with the first problem only
    yield the same single message; a schema with two bad elements yields
    one message for both. *)
Lemma handleImport_reports_one_problem :
  List.length (FormBuilder.all_violations Sample.three_problems) = 3%nat /\
  List.length (FormBuilder.all_violations Sample.one_problem) = 1%nat /\
  FormBuilder.importError
      (FormBuilder.handleImport (Sample.importing (json_text Sample.three_problems)))
    = FormBuilder.literal "Invalid schema: must have title and elements array" /\
  FormBuilder.importError
      (FormBuilder.handleImport (Sample.importing (json_text Sample.one_problem)))
    = FormBuilder.literal "Invalid schema: must have title and elements array" /\
  FormBuilder.all_violations Sample.two_bad_elements
    = [FormBuilder.invalid_element 1; FormBuilder.invalid_element 2] /\
  FormBuilder.importError
      (FormBuilder.handleImport (Sample.importing (json_text Sample.two_bad_elements)))
    = FormBuilder.literal "Invalid element: missing required fields".
Proof. vm_compute. repeat split. Qed.

(** C6, as amended: the validation of an imported schema, [handleImport],
    stops at the first violation.  For a text that is JSON it reports exactly one
    message, that of the first check that fails - the schema check, then
    the elements in order - and leaves the schema as it was; it imports the
    parsed schema if and only if no check fails. *)
Theorem handleImport_stops_at_first_violation st parsed :
  FormBuilder.importText st = json_text parsed ->
  match FormBuilder.all_violations parsed with
  | [] =>
      FormBuilder.handleImport st =
        {| FormBuilder.schema := parsed;
           FormBuilder.mode := FormBuilder.builder;
           FormBuilder.importText := empty_text;
           FormBuilder.showImportModal := false;
           FormBuilder.importError := FormBuilder.literal "" |}
  | first :: _ =>
      FormBuilder.importError (FormBuilder.handleImport st)
        = FormBuilder.violation_message first /\
      FormBuilder.schema (FormBuilder.handleImport st) = FormBuilder.schema st
  end.
Proof.
  intros T. unfold FormBuilder.handleImport, FormBuilder.validate_import.
  rewrite T. unfold FormBuilder.all_violations.
  destruct parsed as [ | | b | n | s | l | ps]; simpl; try (split; reflexivity).
  destruct (truthy match lookup "title" ps with Some x => x | None => JUndefined end);
    simpl; [|split; reflexivity].
  destruct (match lookup "elements" ps with Some x => x | None => JUndefined end)
    as [ | | b | n | s | items | qs]; simpl; try (split; reflexivity).
  pose proof (validate_elements_first items 0) as V.
  destruct (FormBuilder.element_violations items 0) as [|first rest].
  - now rewrite V.
  - destruct V as (e & -> & M). simpl. now rewrite M.
Qed.

Lemma handleImport_stops_at_first_violation_witness :
  FormBuilder.importError
      (FormBuilder.handleImport (Sample.importing (json_text Sample.two_bad_elements)))
    = FormBuilder.violation_message (FormBuilder.invalid_element 1) /\
  FormBuilder.schema
      (FormBuilder.handleImport (Sample.importing (json_text Sample.two_bad_elements)))
    = FormBuilder.schema (Sample.importing (json_text Sample.two_bad_elements)).
Proof.
  apply (@handleImport_stops_at_first_violation
           (Sample.importing (json_text Sample.two_bad_elements)) Sample.two_bad_elements).
  reflexivity.
Defined.

(* ===================================================================== *)
(** * Further properties: objects, nodes and their data *)
(* ===================================================================== *)

Lemma get_lookup (k : string) (props : list (string * JsValue)) :
  Obj.get k props = lookup k props.
Proof.
  induction props as [|[k' v] rest IH]; simpl; [reflexivity|].
  now destruct (k' =? k).
Qed.

Lemma get_assign_same {A : Type} (k : string) (v : A) props :
  Obj.get k (Obj.assign k v props) = Some v.
Proof.
  induction props as [|[k' x] rest IH]; simpl.
  - now rewrite String.eqb_refl.
  - destruct (String.eqb_spec k' k) as [->|N]; simpl.
    + now rewrite String.eqb_refl.
    + now rewrite (proj2 (String.eqb_neq _ _) N).
Qed.

Lemma get_assign_other {A : Type} (k k' : string) (v : A) props :
  k <> k' -> Obj.get k' (Obj.assign k v props) = Obj.get k' props.
Proof.
  intros N. induction props as [|[k0 x] rest IH]; simpl.
  - now rewrite (proj2 (String.eqb_neq _ _) N).
  - destruct (String.eqb_spec k0 k) as [->|N0]; simpl.
    + now rewrite (proj2 (String.eqb_neq _ _) N).
    + now rewrite IH.
Qed.

Lemma assign_keys {A : Type} (k : string) (v : A) props :
  map fst (Obj.assign k v props) =
  if in_dec string_dec k (map fst props) then map fst props
  else (map fst props ++ [k])%list.
Proof.
  induction props as [|[k0 x] rest IH]; simpl; [reflexivity|].
  destruct (String.eqb_spec k0 k) as [->|N0]; simpl.
  - destruct (string_dec k k); [reflexivity|contradiction].
  - rewrite IH. destruct (string_dec k0 k); [contradiction|].
    now destruct (in_dec string_dec k (map fst rest)).
Qed.

(** In [{ ...base, ...extra }] a key reads as its last binding in [extra],
    and as in [base] when [extra] lacks it. *)
Lemma get_spread {A : Type} (k : string) (extra : list (string * A)) : forall base,
  Obj.get k (Obj.spread base extra) =
  match Obj.get k (rev extra) with
  | Some v => Some v
  | None => Obj.get k base
  end.
Proof.
  unfold Obj.spread.
  induction extra as [|[k0 x] rest IH] using rev_ind; intros base; [reflexivity|].
  rewrite fold_left_app, rev_app_distr. simpl.
  destruct (String.eqb_spec k0 k) as [->|N].
  - apply get_assign_same.
  - rewrite (get_assign_other _ _ N). apply IH.
Qed.

Lemma patch_data_object nodeId patch node :
  Obj.is_object node = true ->
  exists node', Obj.patch_data nodeId patch node = Normal node' /\ Obj.is_object node' = true.
Proof.
  destruct node; try discriminate. intros _. unfold Obj.patch_data. simpl.
  destruct (is_string nodeId _); eexists; split; reflexivity.
Qed.

Lemma map_values_nth f items : forall items',
  Obj.map_values f items = Normal items' ->
  List.length items' = List.length items /\
  forall i x, nth_error items i = Some x ->
    exists y, f x = Normal y /\ nth_error items' i = Some y.
Proof.
  induction items as [|x0 rest IH]; simpl; intros items' H.
  - injection H as <-. split; [reflexivity|]. intros [|i] x; discriminate.
  - destruct (f x0) as [y0|e] eqn:F; simpl in H; [|discriminate].
    destruct (Obj.map_values f rest) as [ys|e] eqn:R; simpl in H; [|discriminate].
    injection H as <-. destruct (IH ys eq_refl) as [L N].
    split; [simpl; now rewrite L|].
    intros [|i] x Hx; simpl in *.
    + injection Hx as <-. eauto.
    + now apply N.
Qed.

Lemma map_values_objects f items :
  (forall x, Obj.is_object x = true -> exists y, f x = Normal y) ->
  forallb Obj.is_object items = true ->
  exists items', Obj.map_values f items = Normal items'.
Proof.
  intros F. induction items as [|x rest IH]; simpl; intros H; [eauto|].
  apply andb_true_iff in H as [Hx Hr].
  destruct (F x Hx) as [y ->]. destruct (IH Hr) as [ys ->]. simpl. eauto.
Qed.

(** X1: [onNodeUpdate] (and [updateSelected], which is the same updater) on
    a list of node objects always yields a list of the same length; a node
    whose id is not the one given is left as it is; in the node that bears
    the id every property other than [data] reads as before, and a key of
    its [data] reads as the patch has it, or as before when the patch lacks
    it. *)
Theorem onNodeUpdate_patches_only_data nodeId patch nds :
  forallb Obj.is_object nds = true ->
  exists nds',
    Canvas.onNodeUpdate nodeId (JObj patch) nds = Normal nds' /\
    Editor.updateSelected (Some nodeId) (JObj patch) nds = Normal nds' /\
    List.length nds' = List.length nds /\
    forall i props,
      nth_error nds i = Some (JObj props) ->
      (lookup "id" props <> Some (JStr nodeId) -> nth_error nds' i = Some (JObj props)) /\
      (lookup "id" props = Some (JStr nodeId) ->
       exists props' data',
         nth_error nds' i = Some (JObj props') /\
         lookup "data" props' = Some (JObj data') /\
         (forall k, k <> "data" -> lookup k props' = lookup k props) /\
         (forall k,
            lookup k data' =
            match lookup k (rev patch) with
            | Some v => Some v
            | None =>
                match lookup "data" props with
                | Some data => lookup k (Obj.own_props data)
                | None => None
                end
            end)).
Proof.
  intros O. unfold Canvas.onNodeUpdate, Editor.updateSelected.
  destruct (map_values_objects (Obj.patch_data nodeId (JObj patch)) nds) as [nds' M].
  { intros x Hx. destruct (patch_data_object nodeId (JObj patch) x Hx) as (y & -> & _). eauto. }
  { exact O. }
  exists nds'. split; [exact M|]. split; [exact M|].
  destruct (map_values_nth _ _ M) as [L N]. split; [exact L|].
  intros i props H. destruct (N i _ H) as (y & P & Hy).
  unfold Obj.patch_data in P. simpl in P.
  split.
  - intros NE.
    assert (E : is_string nodeId match lookup "id" props with
                                 | Some x => x | None => JUndefined end = false).
    { destruct (lookup "id" props) as [[ | | | |s| | ]|]; simpl; try reflexivity.
      apply String.eqb_neq. intros ->. now apply NE. }
    rewrite E in P. injection P as <-. exact Hy.
  - intros E. rewrite E in P. simpl in P. rewrite String.eqb_refl in P.
    injection P as <-.
    eexists _, _. split; [exact Hy|]. split.
    + rewrite <- get_lookup. apply get_assign_same.
    + split.
      * intros k K. rewrite <- !get_lookup. apply get_assign_other. congruence.
      * intros k. etransitivity; [symmetry; apply get_lookup|].
        rewrite get_spread, !get_lookup.
        destruct (lookup k (rev patch)); [reflexivity|].
        now destruct (lookup "data" props).
Qed.

Lemma onNodeUpdate_patches_only_data_witness :
  exists nds',
    Canvas.onNodeUpdate "n2" (JObj [("label", JStr "branch")]) Sample.editor_nodes
      = Normal nds' /\
    Editor.updateSelected (Some "n2") (JObj [("label", JStr "branch")]) Sample.editor_nodes
      = Normal nds' /\
    List.length nds' = List.length Sample.editor_nodes /\
    forall i props,
      nth_error Sample.editor_nodes i = Some (JObj props) ->
      (lookup "id" props <> Some (JStr "n2") -> nth_error nds' i = Some (JObj props)) /\
      (lookup "id" props = Some (JStr "n2") ->
       exists props' data',
         nth_error nds' i = Some (JObj props') /\
         lookup "data" props' = Some (JObj data') /\
         (forall k, k <> "data" -> lookup k props' = lookup k props) /\
         (forall k,
            lookup k data' =
            match lookup k (rev [("label", JStr "branch")]) with
            | Some v => Some v
            | None =>
                match lookup "data" props with
                | Some data => lookup k (Obj.own_props data)
                | None => None
                end
            end)).
Proof.
  apply (@onNodeUpdate_patches_only_data "n2" [("label", JStr "branch")] Sample.editor_nodes).
  reflexivity.
Defined.

Lemma patch_data_hit nodeId patch props :
  lookup "id" props = Some (JStr nodeId) ->
  Obj.patch_data nodeId patch (JObj props) =
    Normal (JObj (Obj.assign "data"
                    (JObj (Obj.spread
                             (Obj.own_props match lookup "data" props with
                                            | Some d => d
                                            | None => JUndefined
                                            end)
                             (Obj.own_props patch)))
                    props)).
Proof.
  intros E. unfold Obj.patch_data. simpl. rewrite E. simpl.
  now rewrite String.eqb_refl.
Qed.

(** X2: [handleConfigChange(key, value)] on a list of node objects: the new
    [config] cell reads [value] under [key] and as the old cell under every
    other key; the selected node's [data.config] becomes that cell - the
    configuration the node held before is not consulted - while the other
    keys of its [data] read as before. *)
Theorem handleConfigChange_writes_the_cell selectedId config key value nds :
  forallb Obj.is_object nds = true ->
  exists nds',
    snd (NodeInspector.handleConfigChange selectedId config key value nds) = Normal nds' /\
    lookup key
      (Obj.own_props (fst (NodeInspector.handleConfigChange selectedId config key value nds)))
      = Some value /\
    (forall k, k <> key ->
       lookup k
         (Obj.own_props (fst (NodeInspector.handleConfigChange selectedId config key value nds)))
         = lookup k (Obj.own_props config)) /\
    forall i props,
      nth_error nds i = Some (JObj props) ->
      lookup "id" props = Some (JStr selectedId) ->
      exists props' data',
        nth_error nds' i = Some (JObj props') /\
        lookup "data" props' = Some (JObj data') /\
        lookup "config" data'
          = Some (fst (NodeInspector.handleConfigChange selectedId config key value nds)) /\
        forall k, k <> "config" ->
          lookup k data' =
          match lookup "data" props with
          | Some data => lookup k (Obj.own_props data)
          | None => None
          end.
Proof.
  intros O. unfold NodeInspector.handleConfigChange. cbn [fst snd].
  set (newConfig := JObj (Obj.assign key value (Obj.own_props config))).
  unfold Canvas.onNodeUpdate.
  destruct (map_values_objects (Obj.patch_data selectedId (JObj [("config", newConfig)])) nds)
    as [nds' M].
  { intros x Hx. destruct (patch_data_object selectedId (JObj [("config", newConfig)]) x Hx)
      as (y & -> & _). eauto. }
  { exact O. }
  exists nds'. split; [exact M|].
  split; [|split].
  - subst newConfig. simpl. rewrite <- get_lookup. apply get_assign_same.
  - intros k K. subst newConfig. simpl. rewrite <- !get_lookup.
    apply get_assign_other. congruence.
  - intros i props H E.
    destruct (map_values_nth _ _ M) as [_ N].
    destruct (N i _ H) as (y & P & Hy).
    rewrite patch_data_hit in P by exact E. injection P as <-.
    eexists _, _. split; [exact Hy|].
    split; [rewrite <- get_lookup; apply get_assign_same|].
    split.
    + etransitivity; [symmetry; apply get_lookup|]. apply get_assign_same.
    + intros k K. etransitivity; [symmetry; apply get_lookup|].
      rewrite get_assign_other by congruence.
      rewrite get_lookup. now destruct (lookup "data" props).
Qed.

Lemma handleConfigChange_writes_the_cell_witness :
  exists nds',
    snd (NodeInspector.handleConfigChange "llm1" (JObj [("model", JStr "gpt-4")])
           "maxTokens" (JNum 1000%float) [Sample.llm_node (JNum nan)]) = Normal nds' /\
    nth_error nds' 0 = Some (Sample.node "llm1" "workflow"
      [("label", JStr "LLM"); ("nodeType", JStr "llm");
       ("config", JObj [("model", JStr "gpt-4"); ("maxTokens", JNum 1000%float)])]).
Proof.
  destruct (@handleConfigChange_writes_the_cell "llm1" (JObj [("model", JStr "gpt-4")])
              "maxTokens" (JNum 1000%float) [Sample.llm_node (JNum nan)] eq_refl)
    as (nds' & M & _).
  exists nds'. split; [exact M|].
  vm_compute in M. injection M as <-. reflexivity.
Defined.

(* ===================================================================== *)
(** * Further properties: palette and drop *)
(* ===================================================================== *)

Lemma group_step_get t acc node :
  Obj.get (Canvas.type_literal t) (Canvas.group_step acc node) =
  if Canvas.of_type t node
  then Some (match Obj.get (Canvas.type_literal t) acc with
             | Some group => group ++ [node]
             | None => [node]
             end)%list
  else Obj.get (Canvas.type_literal t) acc.
Proof.
  unfold Canvas.group_step, Canvas.of_type.
  destruct (String.eqb_spec (Canvas.type_literal (Canvas.type node)) (Canvas.type_literal t))
    as [E|N].
  - rewrite E. destruct (Obj.get (Canvas.type_literal t) acc); apply get_assign_same.
  - destruct (Obj.get (Canvas.type_literal (Canvas.type node)) acc);
      now apply get_assign_other.
Qed.

Lemma grouped_get t templates : forall acc,
  Obj.get (Canvas.type_literal t) (fold_left Canvas.group_step templates acc) =
  match Obj.get (Canvas.type_literal t) acc, filter (Canvas.of_type t) templates with
  | None, [] => None
  | None, hits => Some hits
  | Some group, hits => Some (group ++ hits)%list
  end.
Proof.
  induction templates as [|node rest IH]; intros acc; simpl.
  - destruct (Obj.get _ acc); [now rewrite app_nil_r|reflexivity].
  - rewrite IH, group_step_get.
    destruct (Canvas.of_type t node); [|reflexivity].
    destruct (Obj.get (Canvas.type_literal t) acc) as [group|].
    + now rewrite <- app_assoc.
    + reflexivity.
Qed.

(** X3: [groupedNodes] files every template under its type and nowhere
    else: the group read under a type is the list of the templates of that
    type, in their order, and a type without template has no group. *)
Theorem groupedNodes_groups_by_type t templates :
  Obj.get (Canvas.type_literal t) (Canvas.groupedNodes templates) =
  match filter (fun node => Canvas.type_literal (Canvas.type node) =? Canvas.type_literal t)
               templates with
  | [] => None
  | hits => Some hits
  end.
Proof. unfold Canvas.groupedNodes. now rewrite grouped_get. Qed.

(** X4: dropping what the palette put in the drag appends one node whose
    [data] is exactly the label, type, node type and description of the
    template, the nodes already there being kept; a drag without node data
    makes [onDrop] throw a [SyntaxError], because the data is parsed before
    the check that would ignore the drop. *)
Theorem onDrop_restores_the_template clk template x y left top nds :
  Canvas.onDrop clk
    {| Canvas.dataTransfer := Canvas.onDragStart template;
       Canvas.clientX := x; Canvas.clientY := y;
       Canvas.bounds_left := left; Canvas.bounds_top := top |} nds
  = Normal
      (nds ++
       [JObj [("id", JStr (decimal (Date_now clk)));
              ("type", JStr "workflow");
              ("position", JObj [("x", JNum (x - left)%float); ("y", JNum (y - top)%float)]);
              ("data", JObj [("label", JStr (Canvas.label template));
                             ("type", JStr (Canvas.type_literal (Canvas.type template)));
                             ("nodeType", JStr (Canvas.nodeType template));
                             ("description", JStr (Canvas.description template))])]])%list
  /\
  Canvas.onDrop clk
    {| Canvas.dataTransfer := Canvas.foreign_drag;
       Canvas.clientX := x; Canvas.clientY := y;
       Canvas.bounds_left := left; Canvas.bounds_top := top |} nds
  = Throw SyntaxError.
Proof. split; reflexivity. Qed.

(* ===================================================================== *)
(** * Further properties of the workflow provider *)
(* ===================================================================== *)

Lemma deleteWorkflow_workflows st workflowId :
  workflows (fst (deleteWorkflow st workflowId)) =
  filter (fun w => negb (Workflow.id w =? workflowId)) (workflows st).
Proof.
  unfold deleteWorkflow.
  destruct (bind _ _) as [filtered|e]; simpl; [|reflexivity].
  destruct (currentWorkflow st) as [c|]; [destruct (Workflow.id c =? workflowId)|];
    reflexivity.
Qed.

(** X5: after [deleteWorkflow(id)] - whether or not the stored item could be
    rewritten - the workflow list holds exactly the former workflows of
    another id, and [runWorkflow(id)] no longer does anything. *)
Theorem deleted_workflow_cannot_be_run st workflowId clk :
  (forall w, In w (workflows (fst (deleteWorkflow st workflowId))) <->
             In w (workflows st) /\ Workflow.id w <> workflowId) /\
  ~ In workflowId (map Workflow.id (workflows (fst (deleteWorkflow st workflowId)))) /\
  runWorkflow_start (fst (deleteWorkflow st workflowId)) clk workflowId
    = fst (deleteWorkflow st workflowId).
Proof.
  assert (A : forall w, In w (workflows (fst (deleteWorkflow st workflowId))) <->
                        In w (workflows st) /\ Workflow.id w <> workflowId).
  { intros w. rewrite deleteWorkflow_workflows, filter_In, negb_true_iff.
    now rewrite String.eqb_neq. }
  assert (B : ~ In workflowId
                (map Workflow.id (workflows (fst (deleteWorkflow st workflowId))))).
  { intros I. apply in_map_iff in I as (w & E & I). apply A in I as [_ N]. contradiction. }
  split; [exact A|]. split; [exact B|].
  unfold runWorkflow_start. now rewrite (find_absent _ _ B).
Qed.

(** Once an id is filtered out nothing is found under it, and what is found
    under another id is what was found before. *)
Lemma find_filtered_out workflowId items : forall kept,
  filter_values (fun w => b <- has_id workflowId w ;; Normal (negb b)) items = Normal kept ->
  find_value (has_id workflowId) kept = Normal None.
Proof.
  induction items as [|x rest IH]; simpl; intros kept H.
  - now injection H as <-.
  - unfold has_id in *. destruct (prop "id" x) as [i|e] eqn:P; simpl in *; [|discriminate].
    destruct (filter_values _ rest) as [kept'|e] eqn:F; simpl in H; [|discriminate].
    specialize (IH kept' eq_refl).
    destruct (is_string workflowId i) eqn:S; simpl in H; injection H as <-; [exact IH|].
    simpl. rewrite P. simpl. now rewrite S.
Qed.

Lemma find_after_filter other workflowId items : forall kept,
  other <> workflowId ->
  filter_values (fun w => b <- has_id workflowId w ;; Normal (negb b)) items = Normal kept ->
  find_value (has_id other) kept = find_value (has_id other) items.
Proof.
  intros kept N. revert kept.
  induction items as [|x rest IH]; simpl; intros kept H.
  - now injection H as <-.
  - unfold has_id in *. destruct (prop "id" x) as [i|e] eqn:P; simpl in *; [|discriminate].
    destruct (filter_values _ rest) as [kept'|e] eqn:F; simpl in H; [|discriminate].
    specialize (IH kept' eq_refl).
    destruct (is_string workflowId i) eqn:S; simpl in H; injection H as <-.
    + assert (O : is_string other i = false).
      { destruct i; try reflexivity. simpl in *.
        apply String.eqb_eq in S. subst. now apply String.eqb_neq. }
      now rewrite O.
    + simpl. rewrite P. simpl. now rewrite IH.
Qed.

Lemma filter_values_exact p items : forall kept,
  filter_values p items = Normal kept ->
  forallb json_exact items = true -> forallb json_exact kept = true.
Proof.
  induction items as [|x rest IH]; simpl; intros kept H E.
  - now injection H as <-.
  - apply andb_true_iff in E as [Ex Er].
    destruct (p x) as [b|e]; simpl in H; [|discriminate].
    destruct (filter_values p rest) as [kept'|e]; simpl in H; [|discriminate].
    injection H as <-. specialize (IH kept' eq_refl Er).
    destruct b; simpl; [now rewrite Ex|assumption].
Qed.

(** X6: when the stored item is a JSON array and [deleteWorkflow(id)] went
    through, [loadWorkflow(id)] finds nothing and leaves the state alone,
    while the stored array answers a search for any other id as it did
    before the deletion. *)
Theorem deleted_workflow_cannot_be_loaded st workflowId items :
  item_or_empty_array (localStorage st) = json_text (JArr items) ->
  forallb json_exact items = true ->
  snd (deleteWorkflow st workflowId) = Normal tt ->
  loadWorkflow (fst (deleteWorkflow st workflowId)) workflowId
    = (fst (deleteWorkflow st workflowId), Normal not_found) /\
  exists kept,
    localStorage (fst (deleteWorkflow st workflowId)) = Some (json_text (JArr kept)) /\
    forall other, other <> workflowId ->
      find_value (has_id other) kept = find_value (has_id other) items.
Proof.
  intros S X OK. unfold deleteWorkflow in *. rewrite S in *.
  unfold JSON_parse, as_array, bind in *.
  destruct (filter_values _ items) as [kept|e] eqn:F; [|discriminate OK].
  pose proof (filter_values_exact _ _ F X) as K.
  assert (T : JSON_stringify (JArr kept) = json_text (JArr kept)).
  { unfold JSON_stringify, json_value; fold json_value. now rewrite (json_values_exact _ K). }
  rewrite T. clear OK.
  assert (L : forall s0, localStorage s0 = Some (json_text (JArr kept)) ->
                         loadWorkflow s0 workflowId = (s0, Normal not_found)).
  { intros s0 E. unfold loadWorkflow. rewrite E.
    unfold item_or_empty_array, JSON_parse, as_array, bind.
    now rewrite (find_filtered_out _ _ F). }
  split.
  - destruct (currentWorkflow st) as [c|]; [destruct (Workflow.id c =? workflowId)|];
      apply L; reflexivity.
  - exists kept. split.
    + destruct (currentWorkflow st) as [c|]; [destruct (Workflow.id c =? workflowId)|];
        reflexivity.
    + intros other N. now apply (@find_after_filter other workflowId items kept).
Qed.

Lemma deleted_workflow_cannot_be_loaded_witness :
  loadWorkflow
    (fst (deleteWorkflow
            (fst (saveWorkflow Sample.editing Sample.t1 "Other" "" [] [] 1%float))
            "workflow-3"))
    "workflow-3"
  = (fst (deleteWorkflow
            (fst (saveWorkflow Sample.editing Sample.t1 "Other" "" [] [] 1%float))
            "workflow-3"),
     Normal not_found).
Proof.
  apply (@deleted_workflow_cannot_be_loaded
           (fst (saveWorkflow Sample.editing Sample.t1 "Other" "" [] [] 1%float))
           "workflow-3"
           [Workflow.toJs (saved_workflow Sample.editing Sample.t1 "Other" "" [] [] 1%float)]);
    vm_compute; reflexivity.
Defined.

(** X7: when the stored item cannot be read as an array (it is not JSON, or
    JSON of another shape), [saveWorkflow] and [deleteWorkflow] throw after
    they have updated the workflow list: the list is changed, the stored
    item is not, [saveWorkflow] has set the current workflow, and
    [deleteWorkflow] has not cleared it even when it is the workflow
    deleted. *)
Theorem unreadable_storage_keeps_list_update st e :
  (parsed <- JSON_parse (item_or_empty_array (localStorage st)) ;; as_array parsed) = Throw e ->
  (forall clk name description nodes edges outputs,
      saveWorkflow st clk name description nodes edges outputs =
        (set_currentWorkflow
           (Some (saved_workflow st clk name description nodes edges outputs))
           (set_workflows
              (upsert (saved_workflow st clk name description nodes edges outputs)
                      (workflows st)) st),
         Throw e)) /\
  (forall workflowId,
      deleteWorkflow st workflowId =
        (set_workflows (filter (fun w => negb (Workflow.id w =? workflowId)) (workflows st)) st,
         Throw e) /\
      currentWorkflow (fst (deleteWorkflow st workflowId)) = currentWorkflow st /\
      localStorage (fst (deleteWorkflow st workflowId)) = localStorage st) /\
  (forall workflowId, loadWorkflow st workflowId = (st, Throw e)).
Proof.
  intros H. split; [|split].
  - intros. unfold saveWorkflow, store_workflow.
    destruct (JSON_parse (item_or_empty_array (localStorage st))) as [parsed|e0];
      simpl in *.
    + destruct (as_array parsed); [discriminate H|]. simpl. now injection H as ->.
    + now injection H as ->.
  - intros workflowId.
    assert (D : deleteWorkflow st workflowId =
                (set_workflows
                   (filter (fun w => negb (Workflow.id w =? workflowId)) (workflows st)) st,
                 Throw e)).
    { unfold deleteWorkflow.
      destruct (JSON_parse (item_or_empty_array (localStorage st))) as [parsed|e0];
        simpl in *.
      - destruct (as_array parsed); [discriminate H|]. simpl. now injection H as ->.
      - now injection H as ->. }
    rewrite D. repeat split.
  - intros workflowId. unfold loadWorkflow.
    destruct (JSON_parse (item_or_empty_array (localStorage st))) as [parsed|e0];
      simpl in *.
    + destruct (as_array parsed); [discriminate H|]. simpl. now injection H as ->.
    + now injection H as ->.
Qed.

Lemma unreadable_storage_keeps_list_update_witness :
  deleteWorkflow
    {| currentWorkflow := Some Sample.other; workflows := [Sample.other];
       workflowRuns := []; isRunning := false; localStorage := Some malformed_text;
       awaiting := [] |} "workflow-3"
  = ({| currentWorkflow := Some Sample.other; workflows := [];
        workflowRuns := []; isRunning := false; localStorage := Some malformed_text;
        awaiting := [] |}, Throw SyntaxError).
Proof.
  apply (@unreadable_storage_keeps_list_update
           {| currentWorkflow := Some Sample.other; workflows := [Sample.other];
              workflowRuns := []; isRunning := false; localStorage := Some malformed_text;
              awaiting := [] |} SyntaxError eq_refl).
Defined.

Lemma saved_id_not_empty st clk name description nodes edges outputs :
  Workflow.id (saved_workflow st clk name description nodes edges outputs) <> "".
Proof.
  unfold saved_workflow. simpl.
  destruct (currentWorkflow st) as [c|]; [|discriminate].
  unfold str_or. destruct (String.eqb_spec (Workflow.id c) ""); [discriminate|assumption].
Qed.

Lemma saveWorkflow_current st clk name description nodes edges outputs :
  currentWorkflow (fst (saveWorkflow st clk name description nodes edges outputs)) =
  Some (saved_workflow st clk name description nodes edges outputs).
Proof. unfold saveWorkflow. now destruct (store_workflow _ _). Qed.

Lemma upsert_holds workflow ws : In workflow (upsert workflow ws).
Proof.
  unfold upsert. destruct (find _ ws) as [w|] eqn:F.
  - apply find_some in F as [I E]. apply in_map_iff. exists w. now rewrite E.
  - apply in_or_app. right. now left.
Qed.

(** X8: a second [saveWorkflow] right after a first one saves under the id
    of the first - no new entry is made, the list keeps its length and
    holds the workflow saved last - and keeps the first one's [createdAt]
    when that is not empty. *)
Theorem saving_again_keeps_the_id st clk name description nodes edges outputs
    clk' name' description' nodes' edges' outputs' :
  Workflow.id (saved_workflow
                 (fst (saveWorkflow st clk name description nodes edges outputs))
                 clk' name' description' nodes' edges' outputs')
    = Workflow.id (saved_workflow st clk name description nodes edges outputs) /\
  List.length
      (workflows
         (fst (saveWorkflow (fst (saveWorkflow st clk name description nodes edges outputs))
                 clk' name' description' nodes' edges' outputs')))
    = List.length (workflows (fst (saveWorkflow st clk name description nodes edges outputs))) /\
  In (saved_workflow (fst (saveWorkflow st clk name description nodes edges outputs))
        clk' name' description' nodes' edges' outputs')
     (workflows
        (fst (saveWorkflow (fst (saveWorkflow st clk name description nodes edges outputs))
                clk' name' description' nodes' edges' outputs'))) /\
  (Workflow.createdAt (saved_workflow st clk name description nodes edges outputs) <> "" ->
   Workflow.createdAt (saved_workflow
                         (fst (saveWorkflow st clk name description nodes edges outputs))
                         clk' name' description' nodes' edges' outputs')
     = Workflow.createdAt (saved_workflow st clk name description nodes edges outputs)).
Proof.
  set (w1 := saved_workflow st clk name description nodes edges outputs).
  set (st1 := fst (saveWorkflow st clk name description nodes edges outputs)).
  assert (C : currentWorkflow st1 = Some w1) by apply saveWorkflow_current.
  assert (I1 : Workflow.id w1 <> "") by apply saved_id_not_empty.
  assert (E : Workflow.id (saved_workflow st1 clk' name' description' nodes' edges' outputs')
              = Workflow.id w1).
  { unfold saved_workflow at 1. simpl. rewrite C. unfold str_or.
    now rewrite (proj2 (String.eqb_neq _ _) I1). }
  split; [exact E|].
  rewrite !saveWorkflow_workflows. fold w1. fold st1.
  split; [|split].
  - rewrite (upsert_present (saved_workflow st1 clk' name' description' nodes' edges' outputs')
               (workflows st1)).
    + apply length_map.
    + rewrite E. unfold st1. rewrite saveWorkflow_workflows. fold w1.
      apply in_map. apply upsert_holds.
  - apply upsert_holds.
  - intros NE. unfold saved_workflow at 1. simpl. rewrite C. unfold str_or.
    now rewrite (proj2 (String.eqb_neq _ _) NE).
Qed.






(** X10: saving, loading, deleting and choosing the current workflow never
    touch the runs: the run list, the calls in flight and [isRunning] are
    what they were, whether or not the operation threw. *)
Theorem editing_keeps_the_runs st op :
  (forall clk workflowId, op <> op_runWorkflow clk workflowId) ->
  (forall k clk, op <> op_timer k clk) ->
  workflowRuns (step st op) = workflowRuns st /\
  awaiting (step st op) = awaiting st /\
  isRunning (step st op) = isRunning st.
Proof.
  intros R T. destruct op as [clk n d ns es o | i | i | w | clk i | k clk]; simpl.
  - apply saveWorkflow_keeps_runs.
  - apply loadWorkflow_keeps_runs.
  - apply deleteWorkflow_keeps_runs.
  - repeat split.
  - now destruct (R clk i).
  - now destruct (T k clk).
Qed.

Lemma editing_keeps_the_runs_witness :
  workflowRuns
    (step (runWorkflow_start (Sample.store [Sample.other]) Sample.t0 "workflow-3")
          (op_deleteWorkflow "workflow-3"))
    = workflowRuns (runWorkflow_start (Sample.store [Sample.other]) Sample.t0 "workflow-3") /\
  awaiting
    (step (runWorkflow_start (Sample.store [Sample.other]) Sample.t0 "workflow-3")
          (op_deleteWorkflow "workflow-3"))
    = awaiting (runWorkflow_start (Sample.store [Sample.other]) Sample.t0 "workflow-3") /\
  isRunning
    (step (runWorkflow_start (Sample.store [Sample.other]) Sample.t0 "workflow-3")
          (op_deleteWorkflow "workflow-3"))
    = isRunning (runWorkflow_start (Sample.store [Sample.other]) Sample.t0 "workflow-3").
Proof.
  apply (@editing_keeps_the_runs
           (runWorkflow_start (Sample.store [Sample.other]) Sample.t0 "workflow-3")
           (op_deleteWorkflow "workflow-3")); intros; discriminate.
Defined.

(** X11: the Run button lets one run through at a time.  In every state
    the application reaches from the mounted provider, [runWorkflow] being
    called by [handleRun] behind the Run button alone: at most one call is
    in flight; [isRunning] is true exactly while one is; a run in status
    [running] is the run of the call in flight; and while a call is in
    flight a click on the Run button starts nothing. *)
Theorem run_button_serialises_runs st0 ops :
  mounted st0 ->
  Toolbar.session st0 ops = true ->
  (List.length (awaiting (exec st0 ops)) <= 1)%nat /\
  (isRunning (exec st0 ops) = true <-> awaiting (exec st0 ops) <> []) /\
  (forall r,
      In r (workflowRuns (exec st0 ops)) -> WorkflowRun.status r = running ->
      awaiting (exec st0 ops) = [r]) /\
  (awaiting (exec st0 ops) <> [] ->
   forall clk, Toolbar.click_Run (exec st0 ops) clk = exec st0 ops).
Proof.
  intros M H.
  pose proof (@session_serial ops st0 (mounted_serial M) H) as S.
  set (st := exec st0 ops) in *. clearbody st.
  unfold Toolbar.serial in S.
  assert (D : isRunning st = true -> forall clk, Toolbar.click_Run st clk = st).
  { intros B clk. unfold Toolbar.click_Run, Toolbar.run_disabled. rewrite B.
    now destruct (currentWorkflow st). }
  destruct (awaiting st) as [|run [|run' rest]]; [| |destruct S]; destruct S as [B S].
  - split; [simpl; lia|]. split; [rewrite B; split; [discriminate|intros N; now destruct N]|].
    split; [|intros N; now destruct N].
    intros r I R. now destruct (S r I).
  - split; [simpl; lia|]. split; [split; [discriminate|intros _; exact B]|].
    split; [|intros _; exact (D B)].
    intros r I R. now rewrite (S r I R).
Qed.

Lemma run_button_serialises_runs_witness :
  Toolbar.session (Sample.store [Sample.branching])
    [op_setCurrentWorkflow (Some Sample.branching); op_runWorkflow Sample.t0 "workflow-2"]
    = true /\
  awaiting (exec (Sample.store [Sample.branching])
              [op_setCurrentWorkflow (Some Sample.branching);
               op_runWorkflow Sample.t0 "workflow-2"])
    = [new_run Sample.t0 "workflow-2" Sample.branching] /\
  Toolbar.click_Run
    (exec (Sample.store [Sample.branching])
          [op_setCurrentWorkflow (Some Sample.branching); op_runWorkflow Sample.t0 "workflow-2"])
    Sample.t0
  = exec (Sample.store [Sample.branching])
         [op_setCurrentWorkflow (Some Sample.branching); op_runWorkflow Sample.t0 "workflow-2"].
Proof.
  assert (M : mounted (Sample.store [Sample.branching])) by (vm_compute; auto).
  split; [reflexivity|].
  destruct (@run_button_serialises_runs (Sample.store [Sample.branching])
              [op_setCurrentWorkflow (Some Sample.branching);
               op_runWorkflow Sample.t0 "workflow-2"] M eq_refl)
    as (_ & _ & R & C).
  split.
  - apply (R (new_run Sample.t0 "workflow-2" Sample.branching)); [simpl; auto|reflexivity].
  - apply C. discriminate.
Defined.

(* ===================================================================== *)
(** * Further properties of JSON and of the editor's storage *)
(* ===================================================================== *)

Lemma json_number_is_exact (n : number) : json_exact (json_number n) = true.
Proof.
  unfold json_number.
  destruct (is_nan n || is_infinity n) eqn:A; [reflexivity|].
  destruct (is_zero n && get_sign n) eqn:B; [reflexivity|].
  simpl. unfold exact_number. now rewrite A, B.
Qed.

Lemma json_value_is_exact (v : JsValue) : json_exact (json_value v) = true.
Proof.
  induction v as [ | | b | n | s | items IH | props IH] using JsValue_nested_ind;
    simpl; try reflexivity.
  - apply json_number_is_exact.
  - induction IH as [|x rest Hx _ IHrest]; simpl; [reflexivity|].
    now rewrite Hx, IHrest.
  - induction IH as [|[k x] rest Hx _ IHrest]; simpl; [reflexivity|].
    simpl in Hx. destruct x; simpl in *; try assumption; now rewrite ?Hx, IHrest.
Qed.

(** X12: whatever [saveLocal] is given, [loadLocal] reads a graph back (never
    [null]) with as many nodes and edges; and what it reads back is stable:
    saved and loaded once more it comes back identical. *)
Theorem stored_graph_is_stable nodes edges :
  exists nodes' edges',
    Editor.loadLocal (Editor.saveLocal nodes edges) = Some (JArr nodes', JArr edges') /\
    List.length nodes' = List.length nodes /\
    List.length edges' = List.length edges /\
    Editor.loadLocal (Editor.saveLocal nodes' edges') = Some (JArr nodes', JArr edges').
Proof.
  exists (map json_value nodes), (map json_value edges).
  split; [reflexivity|]. rewrite !length_map. split; [reflexivity|]. split; [reflexivity|].
  unfold Editor.saveLocal, Editor.loadLocal. simpl.
  rewrite !map_map.
  rewrite (map_ext (fun x => json_value (json_value x)) json_value),
          (map_ext (fun x => json_value (json_value x)) json_value); [reflexivity| |];
    intros x; apply json_value_exact, json_value_is_exact.
Qed.

(** X13: [loadLocal] returns [null] exactly when the item is absent, empty,
    not JSON, or the JSON [null]; for any other JSON text it returns a
    graph, in which a missing or [null] [nodes] or [edges] is the empty
    array and anything else is handed over as it is, array or not. *)
Theorem loadLocal_null_cases item :
  (Editor.loadLocal item = None <->
   item = None \/ item = Some empty_text \/ item = Some malformed_text \/
   item = Some (json_text JNull) \/ item = Some (json_text JUndefined)) /\
  (forall props,
      item = Some (json_text (JObj props)) ->
      Editor.loadLocal item =
        Some (nullish_or (match lookup "nodes" props with Some v => v | None => JUndefined end)
                         (JArr []),
              nullish_or (match lookup "edges" props with Some v => v | None => JUndefined end)
                         (JArr []))) /\
  (forall v,
      item = Some (json_text v) -> Obj.is_object v = false -> v <> JNull -> v <> JUndefined ->
      Editor.loadLocal item = Some (JArr [], JArr [])).
Proof.
  split; [|split].
  - split.
    + destruct item as [[ | |v]|]; auto.
      destruct v; simpl; intros H; auto 6; discriminate H.
    + intros [->|[->|[->|[->| ->]]]]; reflexivity.
  - intros props ->. reflexivity.
  - intros v -> O N U. destruct v; try reflexivity; try discriminate; contradiction.
Qed.

(* ===================================================================== *)
(** * Further properties: the toolbar *)
(* ===================================================================== *)

Lemma upsert_only_entry workflow ws w :
  In w (upsert workflow ws) -> Workflow.id w = Workflow.id workflow -> w = workflow.
Proof.
  unfold upsert. destruct (find _ ws) as [w0|] eqn:F; intros I E.
  - apply in_map_iff in I as (x & <- & _).
    destruct (String.eqb_spec (Workflow.id x) (Workflow.id workflow)) as [_|N];
      [reflexivity|contradiction].
  - apply in_app_or in I as [I|[<-|[]]]; [|reflexivity].
    exfalso. apply (find_none_absent _ _ F). rewrite <- E. now apply in_map.
Qed.

Lemma find_upsert workflow ws :
  find (fun w => Workflow.id w =? Workflow.id workflow) (upsert workflow ws) = Some workflow.
Proof.
  unfold upsert. destruct (find _ ws) as [w0|] eqn:F.
  - induction ws as [|x rest IH]; simpl in *; [discriminate|].
    destruct (String.eqb_spec (Workflow.id x) (Workflow.id workflow)) as [E|N]; simpl.
    + now rewrite String.eqb_refl.
    + rewrite (proj2 (String.eqb_neq _ _) N). now apply IH.
  - induction ws as [|x rest IH]; simpl in *.
    + now rewrite String.eqb_refl.
    + destruct (Workflow.id x =? Workflow.id workflow); [discriminate|]. now apply IH.
Qed.

(** X14: [handleSave] never saves the graph on the canvas: whatever the
    provider held, the workflow it makes current and every entry of the
    list under the id saved have no nodes and no edges.  It ends as
    [saveWorkflow] does: when that returns, the dialog is closed; when that
    throws, the toolbar is left as it was, the dialog as open as before. *)
Theorem handleSave_saves_an_empty_graph tb st clk :
  exists saved,
    currentWorkflow (snd (fst (Toolbar.handleSave tb st clk))) = Some saved /\
    Workflow.name saved = Toolbar.workflowName tb /\
    Workflow.nodes saved = [] /\ Workflow.edges saved = [] /\
    (forall w, In w (workflows (snd (fst (Toolbar.handleSave tb st clk)))) ->
               Workflow.id w = Workflow.id saved ->
               Workflow.nodes w = [] /\ Workflow.edges w = []) /\
    snd (Toolbar.handleSave tb st clk)
      = snd (saveWorkflow st clk (Toolbar.workflowName tb) (Toolbar.workflowDescription tb)
               [] [] (Toolbar.workflowOutputs tb)) /\
    (forall u, snd (Toolbar.handleSave tb st clk) = Normal u ->
       Toolbar.saveDialogOpen (fst (fst (Toolbar.handleSave tb st clk))) = false) /\
    (forall e, snd (Toolbar.handleSave tb st clk) = Throw e ->
       fst (fst (Toolbar.handleSave tb st clk)) = tb).
Proof.
  set (saved := saved_workflow st clk (Toolbar.workflowName tb) (Toolbar.workflowDescription tb)
                  [] [] (Toolbar.workflowOutputs tb)).
  exists saved.
  assert (S : snd (fst (Toolbar.handleSave tb st clk)) =
              fst (saveWorkflow st clk (Toolbar.workflowName tb)
                     (Toolbar.workflowDescription tb) [] [] (Toolbar.workflowOutputs tb))).
  { unfold Toolbar.handleSave. now destruct (snd (saveWorkflow _ _ _ _ _ _ _)). }
  rewrite S, saveWorkflow_current, saveWorkflow_workflows. fold saved.
  split; [reflexivity|]. split; [reflexivity|]. split; [reflexivity|]. split; [reflexivity|].
  split.
  - intros w I E. now rewrite (upsert_only_entry _ _ _ I E).
  - unfold Toolbar.handleSave.
    destruct (snd (saveWorkflow _ _ _ _ _ _ _)) as [[]|e]; simpl.
    + split; [reflexivity|]. split; [reflexivity|discriminate].
    + split; [reflexivity|]. split; [discriminate|reflexivity].
Qed.

(** X15: [handleRun] right after [handleSave] always starts a run, for the
    workflow just saved: the run list grows by one Run in status [running]
    whose log starts with the name typed in the toolbar. *)
Theorem handleRun_after_handleSave tb st clk clk' :
  exists run,
    workflowRuns (Toolbar.handleRun (snd (fst (Toolbar.handleSave tb st clk))) clk')
      = (workflowRuns st ++ [run])%list /\
    WorkflowRun.status run = running /\
    WorkflowRun.logs run = ["Starting workflow: " ++ Toolbar.workflowName tb] /\
    isRunning (Toolbar.handleRun (snd (fst (Toolbar.handleSave tb st clk))) clk') = true.
Proof.
  set (saved := saved_workflow st clk (Toolbar.workflowName tb) (Toolbar.workflowDescription tb)
                  [] [] (Toolbar.workflowOutputs tb)).
  assert (S : snd (fst (Toolbar.handleSave tb st clk)) =
              fst (saveWorkflow st clk (Toolbar.workflowName tb)
                     (Toolbar.workflowDescription tb) [] [] (Toolbar.workflowOutputs tb))).
  { unfold Toolbar.handleSave. now destruct (snd (saveWorkflow _ _ _ _ _ _ _)). }
  rewrite S. set (st1 := fst (saveWorkflow _ _ _ _ _ _ _)).
  assert (C : currentWorkflow st1 = Some saved) by apply saveWorkflow_current.
  assert (W : workflows st1 = upsert saved (workflows st)) by apply saveWorkflow_workflows.
  assert (R : workflowRuns st1 = workflowRuns st)
    by apply (saveWorkflow_keeps_runs st clk (Toolbar.workflowName tb)
                (Toolbar.workflowDescription tb) [] [] (Toolbar.workflowOutputs tb)).
  exists (new_run clk' (Workflow.id saved) saved).
  unfold Toolbar.handleRun. rewrite C.
  rewrite (@runWorkflow_start_found st1 clk' (Workflow.id saved) saved)
    by (rewrite W; apply find_upsert).
  simpl. rewrite R. repeat split.
Qed.

(* ===================================================================== *)
(** * Further properties: the builder panel *)
(* ===================================================================== *)

Import BuilderPanel.

Lemma swap_with_next_perm n : forall els, Permutation (swap_with_next n els) els.
Proof.
  induction n as [|n IH]; intros [|a rest]; simpl; try reflexivity.
  - destruct rest; [reflexivity|apply perm_swap].
  - apply perm_skip, IH.
Qed.

Lemma swap_with_next_twice n : forall els,
  swap_with_next n (swap_with_next n els) = els.
Proof.
  induction n as [|n IH]; intros [|a rest]; simpl; try reflexivity.
  - now destruct rest.
  - f_equal. apply IH.
Qed.

Lemma findIndex_bound i els : forall n,
  findIndex i els = Some n -> (n < List.length els)%nat.
Proof.
  induction els as [|el rest IH]; simpl; intros n H; [discriminate|].
  destruct (id el =? i); [injection H as <-; lia|].
  destruct (findIndex i rest) as [m|]; [|discriminate].
  injection H as <-. specialize (IH m eq_refl). lia.
Qed.

(** X16: [moveElement] only reorders: the elements after it are a permutation
    of those before and title and description are untouched; it changes
    nothing at all for an unknown id, for the first element moved up and
    for the last element moved down. *)
Theorem moveElement_only_reorders i direction prev :
  Permutation (elements (moveElement i direction prev)) (elements prev) /\
  title (moveElement i direction prev) = title prev /\
  description (moveElement i direction prev) = description prev /\
  (findIndex i (elements prev) = None -> moveElement i direction prev = prev) /\
  (findIndex i (elements prev) = Some 0%nat -> moveElement i up prev = prev) /\
  (forall n, findIndex i (elements prev) = Some n -> S n = List.length (elements prev) ->
             moveElement i down prev = prev).
Proof.
  unfold moveElement. split; [|split; [|split; [|split; [|split]]]].
  - destruct (findIndex i (elements prev)) as [n|]; [|reflexivity].
    destruct direction; [destruct n|destruct (_ <=? _)%nat]; simpl;
      try reflexivity; apply swap_with_next_perm.
  - destruct (findIndex i (elements prev)) as [n|]; [|reflexivity].
    destruct direction; [destruct n|destruct (_ <=? _)%nat]; reflexivity.
  - destruct (findIndex i (elements prev)) as [n|]; [|reflexivity].
    destruct direction; [destruct n|destruct (_ <=? _)%nat]; reflexivity.
  - now intros ->.
  - now intros ->.
  - intros n -> L. rewrite <- L. now rewrite Nat.leb_refl.
Qed.

Lemma findIndex_after_swap_up i : forall n els,
  findIndex i els = Some (S n) ->
  findIndex i (swap_with_next n els) = Some n /\
  nth_error (swap_with_next n els) n = nth_error els (S n).
Proof.
  induction n as [|n IH]; intros [|a rest]; simpl; try discriminate.
  - destruct (id a =? i) eqn:A; [discriminate|].
    destruct rest as [|b rest]; simpl; [discriminate|].
    destruct (id b =? i) eqn:B.
    + intros _. split; reflexivity.
    + destruct (findIndex i rest); discriminate.
  - destruct (id a =? i) eqn:A; [discriminate|].
    destruct (findIndex i rest) as [m|] eqn:R; [|discriminate].
    intros [= ->]. destruct (IH rest R) as [F N].
    now rewrite F, N.
Qed.

(** X17: moving an element up and then down again puts every element back in
    its place; after the move up the element sits one place earlier. *)
Theorem moveElement_up_then_down i prev n :
  findIndex i (elements prev) = Some (S n) ->
  nth_error (elements (moveElement i up prev)) n = nth_error (elements prev) (S n) /\
  findIndex i (elements (moveElement i up prev)) = Some n /\
  moveElement i down (moveElement i up prev) = prev.
Proof.
  intros H. destruct (findIndex_after_swap_up _ _ H) as [F N].
  pose proof (findIndex_bound _ _ H) as B.
  assert (U : moveElement i up prev = set_elements (swap_with_next n (elements prev)) prev).
  { unfold moveElement. now rewrite H. }
  rewrite U. simpl. split; [exact N|]. split; [exact F|].
  unfold moveElement. simpl. rewrite F.
  assert (L : List.length (swap_with_next n (elements prev)) = List.length (elements prev)).
  { apply Permutation_length, swap_with_next_perm. }
  rewrite L. destruct (Nat.leb_spec (List.length (elements prev)) (S n)) as [C|_]; [lia|].
  unfold set_elements. simpl. rewrite swap_with_next_twice. now destruct prev.
Qed.

Lemma moveElement_up_then_down_witness :
  moveElement "b" down
    (moveElement "b" up
       {| title := "T"; description := None;
          elements := [createDefaultElement "a" "" text; createDefaultElement "b" "" date] |})
  = {| title := "T"; description := None;
       elements := [createDefaultElement "a" "" text; createDefaultElement "b" "" date] |}.
Proof.
  apply (@moveElement_up_then_down "b"
           {| title := "T"; description := None;
              elements := [createDefaultElement "a" "" text; createDefaultElement "b" "" date] |}
           0%nat eq_refl).
Defined.

Lemma findIndex_none i els :
  findIndex i els = None <-> forall el, In el els -> id el <> i.
Proof.
  induction els as [|a rest IH]; simpl.
  - split; [intros _ el []|reflexivity].
  - destruct (String.eqb_spec (id a) i) as [E|N].
    + split; [discriminate|]. intros H. exfalso. apply (H a); auto.
    + destruct (findIndex i rest) as [m|].
      * split; [discriminate|]. intros H.
        assert (C : Some m = None) by (apply IH; intros el I; apply H; auto).
        discriminate C.
      * split; [|reflexivity]. intros _ el [<-|I]; [assumption|].
        now apply (proj1 IH eq_refl).
Qed.

Lemma filter_keeps_all i els :
  (forall el, In el els -> id el <> i) ->
  filter (fun el => negb (id el =? i)) els = els.
Proof.
  induction els as [|a rest IH]; simpl; intros H; [reflexivity|].
  rewrite (proj2 (String.eqb_neq _ _) (H a (or_introl eq_refl))). simpl.
  f_equal. apply IH. intros el I. apply H. now right.
Qed.

(** X18: [deleteElement(id)] removes every element of that id and nothing
    else: afterwards no element bears the id, the other elements are all
    there, title and description are untouched, and for an id that no
    element bears the schema is unchanged. *)
Theorem deleteElement_removes_the_id i prev :
  findIndex i (elements (deleteElement i prev)) = None /\
  (forall el, In el (elements (deleteElement i prev)) <->
              In el (elements prev) /\ id el <> i) /\
  title (deleteElement i prev) = title prev /\
  description (deleteElement i prev) = description prev /\
  (findIndex i (elements prev) = None -> deleteElement i prev = prev).
Proof.
  assert (A : forall el, In el (elements (deleteElement i prev)) <->
                         In el (elements prev) /\ id el <> i).
  { intros el. simpl. rewrite filter_In, negb_true_iff. now rewrite String.eqb_neq. }
  split; [|split; [exact A|split; [reflexivity|split; [reflexivity|]]]].
  - apply findIndex_none. intros el I. now apply A in I.
  - intros H. unfold deleteElement.
    rewrite (@filter_keeps_all i _ (proj1 (findIndex_none _ _) H)). now destruct prev.
Qed.

(** X19: an element added with an id that no element bears is taken away
    again by [deleteElement] of that id, which gives back the schema as it
    was before [addElement]. *)
Theorem addElement_then_deleteElement fresh fresh_option selectedType prev :
  findIndex fresh (elements prev) = None ->
  deleteElement fresh (addElement fresh fresh_option selectedType prev) = prev /\
  List.length (elements (addElement fresh fresh_option selectedType prev))
    = S (List.length (elements prev)) /\
  findIndex fresh (elements (addElement fresh fresh_option selectedType prev))
    = Some (List.length (elements prev)).
Proof.
  intros H. pose proof (proj1 (findIndex_none _ _) H) as N.
  split; [|split].
  - unfold deleteElement, addElement. simpl.
    rewrite filter_app, (@filter_keeps_all fresh _ N). simpl.
    rewrite String.eqb_refl. simpl. rewrite app_nil_r. now destruct prev.
  - simpl. rewrite length_app. simpl. lia.
  - simpl. clear N. induction (elements prev) as [|a rest IH]; simpl in *.
    + now rewrite String.eqb_refl.
    + destruct (id a =? fresh); [discriminate|].
      destruct (findIndex fresh rest); [discriminate|]. now rewrite IH.
Qed.

Lemma addElement_then_deleteElement_witness :
  deleteElement "e9" (addElement "e9" "o9" radio
    {| title := "T"; description := None;
       elements := [createDefaultElement "a" "" text] |})
  = {| title := "T"; description := None;
       elements := [createDefaultElement "a" "" text] |}.
Proof.
  apply (@addElement_then_deleteElement "e9" "o9" radio
           {| title := "T"; description := None;
              elements := [createDefaultElement "a" "" text] |} eq_refl).
Defined.

Lemma findIndex_find i els : forall n,
  findIndex i els = Some n ->
  exists el, find (fun el => id el =? i) els = Some el /\
             nth_error els n = Some el /\ id el = i.
Proof.
  induction els as [|a rest IH]; simpl; intros n H; [discriminate|].
  destruct (String.eqb_spec (id a) i) as [E|N].
  - injection H as <-. exists a. auto.
  - destruct (findIndex i rest) as [m|]; [|discriminate].
    injection H as <-. destruct (IH m eq_refl) as (el & F & Nth & E). exists el. auto.
Qed.

Lemma filter_insert fresh copy l1 l2 :
  id copy = fresh ->
  (forall el, In el l1 -> id el <> fresh) ->
  (forall el, In el l2 -> id el <> fresh) ->
  filter (fun el => negb (id el =? fresh)) (l1 ++ copy :: l2) = (l1 ++ l2)%list.
Proof.
  intros C N1 N2. rewrite filter_app. simpl.
  rewrite C, String.eqb_refl. simpl.
  now rewrite (@filter_keeps_all fresh l1 N1), (@filter_keeps_all fresh l2 N2).
Qed.

(** X20: [duplicateElement(id)] leaves the schema alone for an unknown id;
    for the first element of that id it throws if the element is a radio
    group without options, and otherwise inserts right behind it one copy
    that differs only by its id and by [" (Copy)"] added to its field name,
    every other element keeping its order; deleting the copy gives the
    schema back. *)
Theorem duplicateElement_inserts_a_copy fresh i prev :
  match findIndex i (elements prev) with
  | None => duplicateElement fresh i prev = Normal prev
  | Some n =>
      exists element,
        nth_error (elements prev) n = Some element /\ id element = i /\
        match type element, options element with
        | radio, None => duplicateElement fresh i prev = Throw TypeError
        | _, _ =>
            exists next copy,
              duplicateElement fresh i prev = Normal next /\
              elements next =
                (firstn (S n) (elements prev) ++ copy :: skipn (S n) (elements prev))%list /\
              nth_error (elements next) (S n) = Some copy /\
              copy = {| id := fresh; fieldName := fieldName element ++ " (Copy)";
                        type := type element; required := required element;
                        placeholder := placeholder element; options := options element;
                        multiple := multiple element; accept := accept element |} /\
              title next = title prev /\ description next = description prev /\
              (findIndex fresh (elements prev) = None ->
               deleteElement fresh next = prev)
        end
  end.
Proof.
  unfold duplicateElement.
  destruct (findIndex i (elements prev)) as [n|] eqn:F.
  2:{ now destruct (find _ (elements prev)). }
  destruct (findIndex_find _ _ F) as (element & Fd & Nth & E).
  exists element. split; [exact Nth|]. split; [exact E|]. rewrite Fd.
  assert (G : forall copy,
             id copy = fresh ->
             nth_error (firstn (S n) (elements prev) ++ copy :: skipn (S n) (elements prev))
                       (S n) = Some copy /\
             (findIndex fresh (elements prev) = None ->
              deleteElement fresh
                (set_elements
                   (firstn (S n) (elements prev) ++ copy :: skipn (S n) (elements prev)) prev)
              = prev)).
  { intros copy C. split.
    - rewrite nth_error_app2; rewrite length_firstn;
        pose proof (findIndex_bound _ _ F); [|lia].
      replace (S n - Nat.min (S n) (List.length (elements prev)))%nat with 0%nat by lia.
      reflexivity.
    - intros H. pose proof (proj1 (findIndex_none _ _) H) as N.
      unfold deleteElement, set_elements. cbn [elements title description].
      rewrite (@filter_insert fresh copy (firstn (S n) (elements prev))
                 (skipn (S n) (elements prev)) C).
      + rewrite firstn_skipn. now destruct prev.
      + intros el I. apply N. rewrite <- (firstn_skipn (S n) (elements prev)).
        apply in_or_app. now left.
      + intros el I. apply N. rewrite <- (firstn_skipn (S n) (elements prev)).
        apply in_or_app. now right. }
  destruct (type element) eqn:T; destruct (options element) eqn:O;
    try reflexivity;
    (eexists _, _; split; [reflexivity|]; split; [reflexivity|];
     split; [apply G; reflexivity|]; split; [unfold merge; simpl; now rewrite ?T, ?O|];
     split; [reflexivity|]; split; [reflexivity|]; apply G; reflexivity).
Qed.

(* ===================================================================== *)
(** * Further properties: export, import and the preview form *)
(* ===================================================================== *)

Lemma type_literal_truthy (t : ElementType) : truthy (JStr (type_literal t)) = true.
Proof. now destruct t. Qed.

Lemma exported_element_props el :
  exists rest,
    json_value (element_toJs el) =
    JObj (("id", JStr (id el)) :: ("fieldName", JStr (fieldName el)) ::
          ("type", JStr (type_literal (type el))) :: rest).
Proof. unfold element_toJs. simpl. eexists. reflexivity. Qed.

Lemma validate_exported_elements els :
  FormBuilder.validate_elements (map json_value (map element_toJs els)) =
  if forallb importable_element els then Normal tt
  else Throw (Thrown FormBuilder.invalid_element_message).
Proof.
  induction els as [|el rest IH]; [reflexivity|].
  cbn [map forallb]. destruct (exported_element_props el) as [more ->].
  cbn [FormBuilder.validate_elements prop lookup bind String.eqb Ascii.eqb Bool.eqb].
  simpl String.eqb. cbn iota. rewrite type_literal_truthy.
  unfold importable_element. simpl truthy.
  destruct (id el =? ""), (fieldName el =? ""); simpl; try reflexivity. exact IH.
Qed.

(** X21: a schema exported by the builder is accepted by [handleImport]
    exactly when its title is not empty and every element has a non-empty
    id and field name; otherwise the import is refused with the schema
    message (empty title) or the element message. *)
Theorem exported_schema_import schema :
  FormBuilder.validate_import (exportJson schema) =
  if title schema =? "" then Throw (Thrown FormBuilder.invalid_schema_message)
  else if forallb importable_element (elements schema)
       then Normal (json_value (schema_toJs schema))
       else Throw (Thrown FormBuilder.invalid_element_message).
Proof.
  unfold exportJson, JSON_stringify, schema_toJs, FormBuilder.validate_import.
  destruct schema as [t d els]. cbn [title description elements].
  destruct d as [d|]; simpl; rewrite validate_exported_elements;
    destruct (t =? ""); simpl; try reflexivity;
    destruct (forallb importable_element els); reflexivity.
Qed.

Import PreviewForm.

Lemma get_none_keys {A : Type} (k : string) (props : list (string * A)) :
  Obj.get k props = None <-> ~ In k (map fst props).
Proof.
  induction props as [|[k' v] rest IH]; simpl; [tauto|].
  destruct (String.eqb_spec k' k) as [->|N].
  - split; [discriminate|]. intros H. exfalso. apply H. now left.
  - rewrite IH. tauto.
Qed.

Lemma put_proto {A : Type} (v : A) props :
  ~ In "__proto__" (map fst props) -> Obj.put "__proto__" v props = props.
Proof.
  intros N. unfold Obj.put. now rewrite (proj2 (get_none_keys _ _) N).
Qed.

Lemma put_other {A : Type} (k : string) (v : A) props :
  k <> "__proto__" -> Obj.put k v props = Obj.assign k v props.
Proof.
  intros N. unfold Obj.put. rewrite (proj2 (String.eqb_neq _ _) N).
  now destruct (Obj.get k props).
Qed.

Lemma in_assign_keys {A : Type} (k k0 : string) (v : A) props :
  In k (map fst (Obj.assign k0 v props)) <-> In k (map fst props) \/ k = k0.
Proof.
  rewrite assign_keys.
  destruct (in_dec string_dec k0 (map fst props)) as [I|N].
  - split; [auto|]. intros [H| ->]; assumption.
  - rewrite in_app_iff. simpl. split; intros [H|H]; auto.
    + destruct H as [<-|[]]. auto.
Qed.

(** One round of the [forEach], on errors that have no own [__proto__]. *)
Lemma check_element_reported vals errs el :
  ~ In "__proto__" (map fst errs) ->
  check_element vals errs el =
  if reported vals el then Obj.assign (id el) (fieldName el ++ " is required") errs
  else errs.
Proof.
  intros N. unfold check_element, reported, wanting.
  destruct (required el) as [[|]|]; try reflexivity.
  destruct (lacks (value_of vals (id el))); [|reflexivity]. simpl.
  destruct (String.eqb_spec (id el) "__proto__") as [E|D]; simpl.
  - rewrite E. now apply put_proto.
  - now apply put_other.
Qed.

Lemma check_element_no_proto vals errs el :
  ~ In "__proto__" (map fst errs) ->
  ~ In "__proto__" (map fst (check_element vals errs el)).
Proof.
  intros N. rewrite check_element_reported by assumption.
  unfold reported. destruct (wanting vals el); simpl; [|assumption].
  destruct (String.eqb_spec (id el) "__proto__") as [E|D]; simpl; [assumption|].
  rewrite in_assign_keys. intros [H|H]; [contradiction|]. now apply D.
Qed.

Lemma errors_keys vals els : forall acc k,
  ~ In "__proto__" (map fst acc) ->
  (In k (map fst (fold_left (check_element vals) els acc)) <->
   In k (map fst acc) \/ exists el, In el els /\ id el = k /\ reported vals el = true).
Proof.
  induction els as [|a rest IH]; intros acc k N; simpl.
  - split; [auto|]. intros [H|(el & [] & _)]. exact H.
  - rewrite IH by now apply check_element_no_proto.
    rewrite check_element_reported by assumption.
    destruct (reported vals a) eqn:W.
    + rewrite in_assign_keys. split.
      * intros [[H| ->]|(el & I & E & F)]; eauto 7.
      * intros [H|(el & [<-|I] & E & F)]; eauto 7.
    + split.
      * intros [H|(el & I & E & F)]; eauto 7.
      * intros [H|(el & [<-|I] & E & F)]; eauto 7. congruence.
Qed.

Lemma errors_get_other vals k els : forall acc,
  ~ In "__proto__" (map fst acc) ->
  (forall el, In el els -> id el <> k) ->
  Obj.get k (fold_left (check_element vals) els acc) = Obj.get k acc.
Proof.
  induction els as [|a rest IH]; intros acc N H; simpl; [reflexivity|].
  rewrite IH; [|now apply check_element_no_proto|intros el I; apply H; now right].
  rewrite check_element_reported by assumption.
  destruct (reported vals a); [|reflexivity].
  apply get_assign_other. apply H. now left.
Qed.

Lemma errors_get vals els : forall acc el,
  ~ In "__proto__" (map fst acc) ->
  NoDup (map id els) -> In el els -> reported vals el = true ->
  Obj.get (id el) (fold_left (check_element vals) els acc)
    = Some (fieldName el ++ " is required").
Proof.
  induction els as [|a rest IH]; intros acc el N ND I W; [destruct I|].
  simpl in *. inversion ND as [|x l NI ND']; subst.
  destruct I as [<-|I].
  - rewrite errors_get_other.
    + rewrite check_element_reported, W by assumption. apply get_assign_same.
    + now apply check_element_no_proto.
    + intros el I E. apply NI. rewrite <- E. now apply in_map.
  - apply IH; auto. now apply check_element_no_proto.
Qed.

Lemma validateForm_keys schema vals k :
  In k (map fst (fst (validateForm schema vals))) <->
  exists el, In el (elements schema) /\ id el = k /\ reported vals el = true.
Proof.
  unfold validateForm. simpl. rewrite errors_keys by (intros []). simpl.
  split; [intros [[]|H]; exact H|auto].
Qed.

Lemma validateForm_result schema vals :
  snd (validateForm schema vals) = true <->
  forall el, In el (elements schema) -> reported vals el = false.
Proof.
  pose proof (validateForm_keys schema vals) as K.
  unfold validateForm in *. simpl in *.
  destruct (fold_left (check_element vals) (elements schema) []) as [|[k m] rest].
  - split; [|reflexivity]. intros _ el I.
    destruct (reported vals el) eqn:R; [|reflexivity].
    exfalso. apply (proj2 (K (id el))). eauto.
  - split; [discriminate|]. intros H. exfalso.
    destruct (proj1 (K k) (or_introl eq_refl)) as (el & I & _ & R).
    rewrite (H el I) in R. discriminate R.
Qed.

Lemma reported_iff vals el :
  reported vals el = true <->
  required el = Some true /\ lacks (value_of vals (id el)) = true /\ id el <> "__proto__".
Proof.
  unfold reported, wanting.
  destruct (String.eqb_spec (id el) "__proto__") as [E|D];
    destruct (required el) as [[|]|]; simpl; rewrite ?andb_false_r, ?andb_true_r;
    split; try discriminate; try tauto;
    try (intros (H & _); discriminate H); intros (_ & _ & H); contradiction.
Qed.

(** X22: [validateForm] reports every problem it finds in one pass, and
    what it finds depends on the prototype of the two objects.  A value is
    missing when the own property of [values] is falsy or an empty array,
    or when there is none and the id is not the name of a member of
    [Object.prototype].  The keys of the errors it sets are exactly the
    ids, other than [__proto__], of the required elements whose value is
    missing; it returns true exactly when there is none; and when the ids
    are distinct each such element has its own message, its field name
    followed by [" is required"]. *)
Theorem validateForm_reports_every_missing_value schema vals :
  (forall k,
      lacks (value_of vals k) = true <->
      match Obj.get k vals with
      | Some v => missing v = true
      | None => Obj.inherited k = false
      end) /\
  (forall k,
      In k (map fst (fst (validateForm schema vals))) <->
      k <> "__proto__" /\
      exists el, In el (elements schema) /\ id el = k /\ required el = Some true /\
                 lacks (value_of vals k) = true) /\
  (snd (validateForm schema vals) = true <->
   forall el, In el (elements schema) -> required el = Some true ->
              id el <> "__proto__" ->
              lacks (value_of vals (id el)) = false) /\
  (NoDup (map id (elements schema)) ->
   forall el, In el (elements schema) -> required el = Some true ->
              id el <> "__proto__" ->
              lacks (value_of vals (id el)) = true ->
              Obj.get (id el) (fst (validateForm schema vals))
                = Some (fieldName el ++ " is required")).
Proof.
  split; [|split; [|split]].
  - intros k. unfold value_of, Obj.read.
    destruct (Obj.get k vals) as [v|]; simpl; [tauto|].
    destruct (Obj.inherited k); simpl; split; auto; discriminate.
  - intros k. rewrite validateForm_keys. split.
    + intros (el & I & E & R). apply reported_iff in R as (R & L & D).
      subst k. eauto 7.
    + intros (D & el & I & E & R & L). exists el. subst k.
      split; [exact I|]. split; [reflexivity|]. apply reported_iff. auto.
  - rewrite validateForm_result. split.
    + intros H el I R D.
      destruct (lacks (value_of vals (id el))) eqn:L; [|reflexivity].
      rewrite <- (H el I). symmetry. apply reported_iff. auto.
    + intros H el I.
      destruct (reported vals el) eqn:R; [|reflexivity].
      apply reported_iff in R as (R & L & D). now rewrite (H el I R D) in L.
  - intros ND el I R D L. unfold validateForm. simpl.
    apply errors_get; auto. apply reported_iff. auto.
Qed.

Lemma value_of_assign_same i v vals : value_of (Obj.assign i v vals) i = Obj.own v.
Proof. unfold value_of, Obj.read. now rewrite get_assign_same. Qed.




(** X24: a required file element, of an id other than [__proto__], is
    reported as missing after a file dialog that returned no file list, and
    after one that returned an empty list: the value stored is an empty
    array, which [validateForm] counts as missing although it is truthy. *)
Theorem empty_file_selection_is_missing schema st el files :
  In el (elements schema) ->
  required el = Some true ->
  id el <> "__proto__" ->
  files = None \/ files = Some [] ->
  Obj.get (id el) (values (handleFileChange (id el) files st)) = Some (JArr []) /\
  truthy (JArr []) = true /\
  In (id el)
     (map fst (fst (validateForm schema (values (handleFileChange (id el) files st))))) /\
  snd (validateForm schema (values (handleFileChange (id el) files st))) = false.
Proof.
  intros I R D F.
  assert (V : values (handleFileChange (id el) files st)
              = Obj.assign (id el) (JArr []) (values st)).
  { destruct F as [-> | ->]; reflexivity. }
  rewrite V. split; [apply get_assign_same|]. split; [reflexivity|].
  assert (W : reported (Obj.assign (id el) (JArr []) (values st)) el = true).
  { apply reported_iff. rewrite value_of_assign_same. auto. }
  split.
  - apply validateForm_keys. eauto.
  - destruct (snd (validateForm schema (Obj.assign (id el) (JArr []) (values st)))) eqn:S;
      [|reflexivity].
    rewrite (proj1 (validateForm_result _ _) S el I) in W. discriminate W.
Qed.

Lemma empty_file_selection_is_missing_witness :
  snd (validateForm
         {| title := "T"; description := None;
            elements := [createDefaultElement "f" "" file;
                         {| id := "cv"; fieldName := "CV"; type := file;
                            required := Some true; placeholder := None; options := None;
                            multiple := Some false; accept := Some "" |}] |}
         (values (handleFileChange "cv" None
                    {| values := []; errors := []; submitted := false;
                       submittedValues := None |}))) = false.
Proof.
  apply (@empty_file_selection_is_missing
           {| title := "T"; description := None;
              elements := [createDefaultElement "f" "" file;
                           {| id := "cv"; fieldName := "CV"; type := file;
                              required := Some true; placeholder := None; options := None;
                              multiple := Some false; accept := Some "" |}] |}
           {| values := []; errors := []; submitted := false; submittedValues := None |}
           {| id := "cv"; fieldName := "CV"; type := file;
              required := Some true; placeholder := None; options := None;
              multiple := Some false; accept := Some "" |} None).
  - simpl. auto.
  - reflexivity.
  - discriminate.
  - now left.
Defined.

(** X25: [handleSubmit] records a submission exactly when [validateForm]
    has nothing to report.  When every required element that lacks a value
    has the id [__proto__], the form becomes submitted with the very values
    entered and no error left; when a required element of another id lacks
    a value, the errors are set, and [submitted] and the values recorded
    earlier stay as they were.  So a required element whose id is the name
    of a member of [Object.prototype] does not hold a submission back as
    long as no value was entered for it. *)
Theorem handleSubmit_records_only_valid_forms schema st :
  ((forall el, In el (elements schema) -> required el = Some true ->
               lacks (value_of (values st) (id el)) = true -> id el = "__proto__") ->
   handleSubmit schema st =
     {| values := values st; errors := []; submitted := true;
        submittedValues := Some (values st) |}) /\
  (forall el, In el (elements schema) -> required el = Some true ->
     lacks (value_of (values st) (id el)) = true -> id el <> "__proto__" ->
     submitted (handleSubmit schema st) = submitted st /\
     submittedValues (handleSubmit schema st) = submittedValues st /\
     values (handleSubmit schema st) = values st /\
     In (id el) (map fst (errors (handleSubmit schema st)))) /\
  (forall el, In el (elements schema) -> required el = Some true ->
     Obj.get (id el) (values st) = None -> Obj.inherited (id el) = true ->
     ~ In (id el) (map fst (errors (handleSubmit schema st)))).
Proof.
  assert (E : errors (handleSubmit schema st) = fst (validateForm schema (values st))).
  { unfold handleSubmit. now destruct (snd (validateForm schema (values st))). }
  split; [|split].
  - intros H. unfold handleSubmit.
    assert (S : snd (validateForm schema (values st)) = true).
    { apply validateForm_result. intros el I.
      destruct (reported (values st) el) eqn:R; [|reflexivity].
      apply reported_iff in R as (R & L & D). now destruct (D (H el I R L)). }
    rewrite S. f_equal.
    unfold validateForm in *. simpl in *.
    now destruct (fold_left (check_element (values st)) (elements schema) []).
  - intros el I R L D.
    assert (W : reported (values st) el = true) by (apply reported_iff; auto).
    assert (S : snd (validateForm schema (values st)) = false).
    { destruct (snd (validateForm schema (values st))) eqn:S; [|reflexivity].
      rewrite (proj1 (validateForm_result _ _) S el I) in W. discriminate W. }
    rewrite E. unfold handleSubmit. rewrite S. simpl.
    repeat split. apply validateForm_keys. eauto.
  - intros el I R G P. rewrite E, validateForm_keys.
    intros (el' & I' & E' & W). apply reported_iff in W as (_ & L & _).
    rewrite E' in L. unfold value_of, Obj.read in L. rewrite G, P in L. discriminate L.
Qed.

(** A required text field named [toString] that was left empty, and a
    required file field named [__proto__] for which no file was chosen:
    [validateForm] reports neither and the form is submitted. *)
Example prototype_named_fields_pass :
  validateForm
    {| title := "T"; description := None;
       elements := [ {| id := "toString"; fieldName := "Name"; type := text;
                        required := Some true; placeholder := None;
                        options := None; multiple := None; accept := None |} ] |}
    [] = ([], true) /\
  validateForm
    {| title := "T"; description := None;
       elements := [ {| id := "__proto__"; fieldName := "CV"; type := file;
                        required := Some true; placeholder := None; options := None;
                        multiple := Some false; accept := Some "" |} ] |}
    (values (handleFileChange "__proto__" None
               {| values := []; errors := []; submitted := false;
                  submittedValues := None |})) = ([], true) /\
  submitted
    (handleSubmit
       {| title := "T"; description := None;
          elements := [ {| id := "toString"; fieldName := "Name"; type := text;
                           required := Some true; placeholder := None;
                           options := None; multiple := None; accept := None |} ] |}
       {| values := []; errors := []; submitted := false; submittedValues := None |})
    = true.
Proof. repeat split. Qed.

(** X26: [updateElement(id, updates)] touches only the elements of that id:
    the list keeps its length, an element of another id is left as it is,
    an element of that id takes each field the update carries and keeps the
    others; with an update that carries no id the ids stay what they were,
    and an update that carries nothing changes nothing. *)
Theorem updateElement_touches_only_the_id i updates prev :
  List.length (elements (updateElement i updates prev)) = List.length (elements prev) /\
  (forall n el, nth_error (elements prev) n = Some el ->
     nth_error (elements (updateElement i updates prev)) n =
       Some (if id el =? i then merge el updates else el)) /\
  (new_id updates = None ->
   map id (elements (updateElement i updates prev)) = map id (elements prev)) /\
  updateElement i no_updates prev = prev /\
  (forall el f, id el = i -> new_fieldName updates = Some f ->
     fieldName (merge el updates) = f /\
     (new_required updates = None -> required (merge el updates) = required el)).
Proof.
  split; [apply length_map|]. split; [|split; [|split]].
  - intros n el H. simpl. rewrite nth_error_map, H. simpl.
    now destruct (id el =? i).
  - intros N. simpl. rewrite map_map. apply map_ext. intros el.
    destruct (id el =? i); simpl; [|reflexivity]. now rewrite N.
  - unfold updateElement.
    rewrite (map_ext _ (fun el => el)), map_id; [now destruct prev|].
    intros el. destruct (id el =? i); simpl; [|reflexivity]. now destruct el.
  - intros el f _ F. unfold merge. simpl. rewrite F. split; [reflexivity|].
    now intros ->.
Qed.

(** X27: the run list only grows at its end: whatever operations follow, an
    entry stays at its place in the list and keeps its id, and the list
    never gets shorter. *)
Theorem runs_are_never_removed st ops :
  (List.length (workflowRuns st) <= List.length (workflowRuns (exec st ops)))%nat /\
  forall i r,
    nth_error (workflowRuns st) i = Some r ->
    exists r',
      nth_error (workflowRuns (exec st ops)) i = Some r' /\
      WorkflowRun.id r' = WorkflowRun.id r.
Proof.
  destruct (exec_run_ids ops st) as [extra E]. split.
  - rewrite <- (length_map WorkflowRun.id (workflowRuns (exec st ops))), E.
    rewrite length_app, length_map. lia.
  - intros i r H.
    assert (M : nth_error (map WorkflowRun.id (workflowRuns (exec st ops))) i
                = Some (WorkflowRun.id r)).
    { rewrite E, nth_error_app1.
      - now rewrite nth_error_map, H.
      - rewrite length_map. apply nth_error_Some. congruence. }
    rewrite nth_error_map in M.
    destruct (nth_error (workflowRuns (exec st ops)) i) as [r'|]; [|discriminate].
    exists r'. split; [reflexivity|]. now injection M.
Qed.
